(** * Adventure: ships and projectiles

  A shallow embedding of [ship.py] and [projectiles.py].

  Number model.  Python's [float] values are modelled by exact rationals
  ([Q]); [int] values that stay integral ([ammo]) are [Z].  Comparisons
  are the decidable ones of [Q], so every guard of the source runs.

  Objects.  A Python object is a record; a subclass holds the record of
  its base class in a field, and a method that mutates [self] and
  returns [None] is a function from the record to the updated record.

  Collaborators.  [physics.py], [camera.py] and pygame itself are not
  part of the two modules embedded here; what the code calls from them
  is collected in the classes [VectorMath] and [Physics]. *)

From Stdlib Require Import QArith Qabs Qround ZArith List Bool Lia Lqa.
Import ListNotations.
Open Scope Q_scope.

(** ** Comparisons and [max] *)

Definition Qleb (a b : Q) : bool := Qle_bool a b.
Definition Qltb (a b : Q) : bool := negb (Qle_bool b a).

(** [max(a, b)] of Python: the first argument unless the second is
  strictly greater. *)
Definition py_max (a b : Q) : Q := if Qltb a b then b else a.

(** ** Exceptions and outcomes *)

Inductive exn : Type :=
| ZeroDivisionError
| AttributeError.

Inductive outcome (A : Type) : Type :=
| Returned (a : A)
| Raised (e : exn).
Arguments Returned {A} a.
Arguments Raised {A} e.

(** ** pygame's [Color] and [Vector2] *)

Module Color.
Record t : Type := mk { r : Z; g : Z; b : Z; a : Z }.

Definition black : t := mk 0 0 0 255.
Definition lime : t := mk 0 255 0 255.

Definition eqb (c d : t) : bool :=
  (r c =? r d)%Z && (g c =? g d)%Z && (b c =? b d)%Z && (a c =? a d)%Z.
End Color.

Module Vec2.
Record t : Type := mk { x : Q; y : Q }.

Definition zero : t := mk 0 0.

Definition add (u v : t) : t := mk (x u + x v) (y u + y v).
Definition sub (u v : t) : t := mk (x u - x v) (y u - y v).
Definition neg (u : t) : t := mk (- x u) (- y u).

(** [u * k] *)
Definition scale (u : t) (k : Q) : t := mk (x u * k) (y u * k).

(** [u / k]: pygame raises [ZeroDivisionError] when [k] is zero. *)
Definition div (u : t) (k : Q) : outcome t :=
  if Qeq_bool k 0 then Raised ZeroDivisionError
  else Returned (mk (x u / k) (y u / k)).

Definition magnitude_squared (u : t) : Q := x u * x u + y u * y u.

(** Equality of vectors up to the representation of their rational
    coordinates. *)
Definition eq (u v : t) : Prop := x u == x v /\ y u == y v.
End Vec2.

(** The parts of [math] and of pygame's [Vector2] that are not rational
  functions. *)
Class VectorMath : Type := {
(** [math.sqrt], behind [Vector2.magnitude] *)
  sqrtQ : Q -> Q;
(** [Vector2.from_polar((r, phi))], [phi] in degrees *)
  from_polar : Q -> Q -> Vec2.t;
(** [math.degrees(math.atan2(y, x))] *)
  atan2_degrees : Q -> Q -> Q
}.

Definition magnitude `{VectorMath} (u : Vec2.t) : Q :=
  sqrtQ (Vec2.magnitude_squared u).

(** What the code relies on from these functions at the points that are
  exact in floating point as well. *)
Class VectorMathLaws (VM : VectorMath) : Prop := {
  sqrtQ_zero : forall q, q == 0 -> sqrtQ q == 0;
  from_polar_east : forall r, Vec2.eq (from_polar r 0) (Vec2.mk r 0)
}.

(** ** [projectiles.py] *)

Module Bullet.
(** A [Bullet] is a [PhysicalObject] (position, velocity, mass) with a
    color. *)
Record t : Type := mk {
  pos : Vec2.t;
  vel : Vec2.t;
  mass : Q;
  color : Color.t
  }.

(** [Bullet.__init__(self, pos, vel, color)] *)
Definition init (pos vel : Vec2.t) (color : Color.t) : t :=
  {| pos := pos; vel := vel; mass := 1; color := Color.black |}.
End Bullet.

(** ** The physical body of a ship *)

Module Disk.
(** Modelled from the spec: the attributes of [physics.Disk] that
    [ship.py] reads or writes (position, velocity, mass, radius and
    color); the class itself lives in [physics.py]. *)
Record t : Type := mk {
  pos : Vec2.t;
  vel : Vec2.t;
  mass : Q;
  radius : Q;
  color : Color.t
  }.

Definition set_pos (d : t) (p : Vec2.t) : t :=
  {| pos := p; vel := vel d; mass := mass d; radius := radius d;
     color := color d |}.
End Disk.

(** Modelled from the spec: the [RigidBody/PhysicalObject] contract, the
  constructor [Disk(pos, vel, density, size, color)], a base [step(dt)]
  for disks and for bullets and [apply_force(force, dt)].  They act on
  the attributes of the base class only. *)
Class Physics : Type := {
  disk_init : Vec2.t -> Vec2.t -> Q -> Q -> Color.t -> Disk.t;
  disk_step : Disk.t -> Q -> Disk.t;
  apply_force : Disk.t -> Vec2.t -> Q -> Disk.t;
  bullet_step : Bullet.t -> Q -> Bullet.t
}.

(** ** [ship.py]: constants *)

Definition BULLET_SPEED : Q := 300.
Definition HEAD_LENGTH : Q := 3.
Definition ENEMY_SHOOT_RANGE : Q := 400.
Definition DAMAGE_INDICATOR_TIME : Q := 0.75.
Definition SPEED : Q := 0.5.

(** ** [class Ship(Disk)] *)

Module Ship.
Record t : Type := mk {
  disk : Disk.t;
  size : Q;
  angle : Q;
  health : Q;
  projectiles : list Bullet.t;
  gun_cooldown : Q;
  has_trophy : bool;
  ammo : Z;
  thrust : Q;
  rotation_thrust : Q;
  move_right : bool;
  move_left : bool;
  move_down : bool;
  move_up : bool;
  fuel_consumption_rate : Q;
  fuel_rot_consumption_rate : Q;
  damage_indicator_timer : Q
  }.

Definition pos (s : t) : Vec2.t := Disk.pos (disk s).
Definition vel (s : t) : Vec2.t := Disk.vel (disk s).
Definition radius (s : t) : Q := Disk.radius (disk s).
Definition color (s : t) : Color.t := Disk.color (disk s).

Definition set_disk (s : t) (d : Disk.t) : t :=
  mk d (size s) (angle s) (health s) (projectiles s) (gun_cooldown s)
     (has_trophy s) (ammo s) (thrust s) (rotation_thrust s)
     (move_right s) (move_left s) (move_down s) (move_up s)
     (fuel_consumption_rate s) (fuel_rot_consumption_rate s)
     (damage_indicator_timer s).

Definition set_pos (s : t) (p : Vec2.t) : t :=
  set_disk s (Disk.set_pos (disk s) p).

Definition set_angle (s : t) (a : Q) : t :=
  mk (disk s) (size s) a (health s) (projectiles s) (gun_cooldown s)
     (has_trophy s) (ammo s) (thrust s) (rotation_thrust s)
     (move_right s) (move_left s) (move_down s) (move_up s)
     (fuel_consumption_rate s) (fuel_rot_consumption_rate s)
     (damage_indicator_timer s).

Definition set_health (s : t) (h : Q) : t :=
  mk (disk s) (size s) (angle s) h (projectiles s) (gun_cooldown s)
     (has_trophy s) (ammo s) (thrust s) (rotation_thrust s)
     (move_right s) (move_left s) (move_down s) (move_up s)
     (fuel_consumption_rate s) (fuel_rot_consumption_rate s)
     (damage_indicator_timer s).

Definition set_projectiles (s : t) (ps : list Bullet.t) : t :=
  mk (disk s) (size s) (angle s) (health s) ps (gun_cooldown s)
     (has_trophy s) (ammo s) (thrust s) (rotation_thrust s)
     (move_right s) (move_left s) (move_down s) (move_up s)
     (fuel_consumption_rate s) (fuel_rot_consumption_rate s)
     (damage_indicator_timer s).

Definition set_gun_cooldown (s : t) (c : Q) : t :=
  mk (disk s) (size s) (angle s) (health s) (projectiles s) c
     (has_trophy s) (ammo s) (thrust s) (rotation_thrust s)
     (move_right s) (move_left s) (move_down s) (move_up s)
     (fuel_consumption_rate s) (fuel_rot_consumption_rate s)
     (damage_indicator_timer s).

Definition set_ammo (s : t) (n : Z) : t :=
  mk (disk s) (size s) (angle s) (health s) (projectiles s)
     (gun_cooldown s) (has_trophy s) n (thrust s) (rotation_thrust s)
     (move_right s) (move_left s) (move_down s) (move_up s)
     (fuel_consumption_rate s) (fuel_rot_consumption_rate s)
     (damage_indicator_timer s).

Definition set_thrust (s : t) (f : Q) : t :=
  mk (disk s) (size s) (angle s) (health s) (projectiles s)
     (gun_cooldown s) (has_trophy s) (ammo s) f (rotation_thrust s)
     (move_right s) (move_left s) (move_down s) (move_up s)
     (fuel_consumption_rate s) (fuel_rot_consumption_rate s)
     (damage_indicator_timer s).

Definition set_damage_indicator_timer (s : t) (c : Q) : t :=
  mk (disk s) (size s) (angle s) (health s) (projectiles s)
     (gun_cooldown s) (has_trophy s) (ammo s) (thrust s)
     (rotation_thrust s) (move_right s) (move_left s) (move_down s)
     (move_up s) (fuel_consumption_rate s) (fuel_rot_consumption_rate s)
     c.

Section Methods.
Context {VM : VectorMath} {PH : Physics}.

(** [Ship.__init__] *)
Definition init (pos vel : Vec2.t) (density size : Q) (color : Color.t) : t :=
  let d := disk_init pos vel density size color in
  {| disk := d;
     size := size;
     angle := 270;
     health := 10000;
     projectiles := [];
     gun_cooldown := 0;
     has_trophy := false;
     ammo := 1000;
     thrust := 40 * Disk.mass d;
     rotation_thrust := 100;
     move_right := false;
     move_left := false;
     move_down := false;
     move_up := false;
     fuel_consumption_rate := 0;
     fuel_rot_consumption_rate := 0;
     damage_indicator_timer := 0 |}.

(** [Ship.get_faced_direction] *)
Definition get_faced_direction (s : t) : Vec2.t :=
  from_polar 1 (angle s).

(** The guard of [Ship.shoot]:
    [self.gun_cooldown <= 0 and self.ammo > 0]. *)
Definition can_shoot (s : t) : bool :=
  Qleb (gun_cooldown s) 0 && (0 <? ammo s)%Z.

(** [Ship.shoot] *)
Definition shoot (s : t) : t :=
  if can_shoot s then
    let forward := get_faced_direction s in
    let bullet_pos :=
      Vec2.add (pos s)
               (Vec2.scale (Vec2.scale forward (radius s)) HEAD_LENGTH) in
    let bullet_vel := Vec2.add (vel s) (Vec2.scale forward BULLET_SPEED) in
    let s :=
      set_projectiles s
        (projectiles s ++ [Bullet.init bullet_pos bullet_vel (color s)]) in
    let s := set_gun_cooldown s 0.5 in
    set_ammo s (ammo s - 1)%Z
  else s.

(** [Ship.suffer_damage] *)
Definition suffer_damage (damage : Q) (s : t) : t :=
  if Qltb 0 damage then
    let s := set_health s (health s - damage) in
    set_damage_indicator_timer s DAMAGE_INDICATOR_TIME
  else s.

(** The four movement flags of [Ship.step], in the order of the
    source: fixed offsets of [SPEED] added to the position. *)
Definition apply_movement (s : t) : t :=
  let s := if move_right s
           then set_pos s (Vec2.add (pos s) (Vec2.mk SPEED 0)) else s in
  let s := if move_left s
           then set_pos s (Vec2.add (pos s) (Vec2.mk (- SPEED) 0)) else s in
  let s := if move_up s
           then set_pos s (Vec2.add (pos s) (Vec2.mk 0 (- SPEED))) else s in
  if move_down s
  then set_pos s (Vec2.add (pos s) (Vec2.mk 0 SPEED)) else s.

(** [self.damage_indicator_timer = max(0, self.damage_indicator_timer - dt)] *)
Definition decay_damage_indicator (dt : Q) (s : t) : t :=
  set_damage_indicator_timer s (py_max 0 (damage_indicator_timer s - dt)).

(** [super().step(dt)] *)
Definition base_step (dt : Q) (s : t) : t :=
  set_disk s (disk_step (disk s) dt).

(** [for projectile in self.projectiles: projectile.step(dt)] *)
Definition step_projectiles (dt : Q) (s : t) : t :=
  set_projectiles s (map (fun p => bullet_step p dt) (projectiles s)).

(** [self.gun_cooldown = max(0, self.gun_cooldown - dt)] *)
Definition decay_gun_cooldown (dt : Q) (s : t) : t :=
  set_gun_cooldown s (py_max 0 (gun_cooldown s - dt)).

(** [Ship.step].  The source also evaluates [get_faced_direction]
    between the horizontal and the vertical flags and drops the result;
    that call reads [angle] and changes nothing. *)
Definition step (dt : Q) (s : t) : t :=
  let s := apply_movement s in
  let s := decay_damage_indicator dt s in
  let s := base_step dt s in
  let s := step_projectiles dt s in
  decay_gun_cooldown dt s.
End Methods.

(** The invariants the ship keeps on its weapon and damage state. *)
Definition invariant (s : t) : Prop :=
  0 <= gun_cooldown s /\
  (0 <= damage_indicator_timer s /\
   damage_indicator_timer s <= DAMAGE_INDICATOR_TIME) /\
  (0 <= ammo s)%Z.
End Ship.

(** ** The [random] module *)

Module Random.
(** [itertools.accumulate(weights)] *)
Fixpoint accumulate (acc : Q) (ws : list Q) : list Q :=
  match ws with
  | [] => []
  | w :: ws' => (acc + w) :: accumulate (acc + w) ws'
  end.

(** [bisect.bisect(a, x, 0, hi)] on an ascending list: the number of
    leading entries, among the first [hi], that are [<= x]. *)
Fixpoint bisect (a : list Q) (x : Q) (hi : nat) : nat :=
  match hi, a with
  | S hi', c :: a' => if Qleb c x then S (bisect a' x hi') else O
  | _, _ => O
  end.

(** [random.choices(population, weights)] with [k = 1], as a function of
    the value [u] that its call of [random.random()] returns:
    [population[bisect(cum_weights, u * total, 0, n - 1)]]. *)
Definition choices {A : Type} (default : A) (population : list A)
  (weights : list Q) (u : Q) : A :=
  let cum_weights := accumulate 0 weights in
  let total := last cum_weights 0 + 0 in
  let hi := (length population - 1)%nat in
  nth (bisect cum_weights (u * total) hi) population default.

(** [random.uniform(a, b)], likewise: [a + (b - a) * random()]. *)
Definition uniform (a b u : Q) : Q := a + (b - a) * u.

(** The values that the calls of [random.random()] return during one
    step of an enemy, by the call that consumes them. *)
Record draws : Type := mk_draws {
  for_choices : Q;
  for_uniform_x : Q;
  for_uniform_y : Q
}.
End Random.

(** ** Methods that mutate [self] and may raise

    A computation takes the object and gives back the object as the
    method left it, together with a value or the exception raised: what
    a method assigned before it raised stays assigned. *)

Definition M (S A : Type) : Type := S -> S * outcome A.

Definition ret {S A : Type} (a : A) : M S A := fun s => (s, Returned a).

Definition bind {S A B : Type} (c : M S A) (k : A -> M S B) : M S B :=
  fun s =>
    match c s with
    | (s', Returned a) => k a s'
    | (s', Raised e) => (s', Raised e)
    end.

Definition get {S : Type} : M S S := fun s => (s, Returned s).

Definition modify {S : Type} (f : S -> S) : M S unit :=
  fun s => (f s, Returned tt).

Definition lift {S A : Type} (o : outcome A) : M S A := fun s => (s, o).

(** Reading an attribute through a reference that may be [None]. *)
Definition deref {S A : Type} (o : option A) : M S A :=
  match o with
  | Some a => ret a
  | None => lift (Raised AttributeError)
  end.

Declare Scope monad_scope.
Delimit Scope monad_scope with monad.
Notation "x <- c ;; k" := (bind c (fun x => k))
  (at level 61, c at next level, right associativity) : monad_scope.
Notation "c ;; k" := (bind c (fun _ => k))
  (at level 61, right associativity) : monad_scope.

(** ** [class BulletEnemy(Ship)] *)

Module BulletEnemy.
Inductive Action : Type :=
| accelerate_to_player
| accelerate_randomly
| decelerate.

(** [list(BulletEnemy.Action)]: the members in definition order. *)
Definition actions : list Action :=
  [accelerate_to_player; accelerate_randomly; decelerate].

(** [target_ship] is a reference to a ship owned by the scene; the field
    holds the state in which the step finds that ship, or [None]. *)
Record t : Type := mk {
  ship : Ship.t;
  time_until_next_shot : Q;
  action_timer : Q;
  current_action : Action;
  target_ship : option Ship.t;
  shoot_cooldown : Q
}.

Definition set_ship (e : t) (s : Ship.t) : t :=
  mk s (time_until_next_shot e) (action_timer e) (current_action e)
     (target_ship e) (shoot_cooldown e).

Definition set_time_until_next_shot (e : t) (c : Q) : t :=
  mk (ship e) c (action_timer e) (current_action e) (target_ship e)
     (shoot_cooldown e).

Definition set_action_timer (e : t) (c : Q) : t :=
  mk (ship e) (time_until_next_shot e) c (current_action e)
     (target_ship e) (shoot_cooldown e).

Definition set_current_action (e : t) (a : Action) : t :=
  mk (ship e) (time_until_next_shot e) (action_timer e) a (target_ship e)
     (shoot_cooldown e).

(** A method of [Ship] called on an enemy. *)
Definition on_ship (f : Ship.t -> Ship.t) (e : t) : t :=
  set_ship e (f (ship e)).

Section Methods.
Context {VM : VectorMath} {PH : Physics}.
Open Scope monad_scope.

(** [BulletEnemy.__init__]; the defaults of the source are
    [shoot_cooldown = 0.0125] and [color = Color("lime")]. *)
Definition init (pos vel : Vec2.t) (target_ship : option Ship.t)
  (shoot_cooldown : Q) (color : Color.t) : t :=
  let s := Ship.init pos vel 1 8 color in
  let s := Ship.set_thrust s (Ship.thrust s * 1) in
  let s := Ship.set_health s 10000 in
  let s := Ship.set_projectiles s [] in
  {| ship := s;
     time_until_next_shot := 20;
     action_timer := 6;
     current_action := accelerate_to_player;
     target_ship := target_ship;
     shoot_cooldown := shoot_cooldown |}.

(** The first conjunct of the shooting condition of [BulletEnemy.step]:
    [delta_target_ship.magnitude_squared() < ENEMY_SHOOT_RANGE**2]. *)
Definition in_range (delta_target_ship : Vec2.t) : bool :=
  Qltb (Vec2.magnitude_squared delta_target_ship) (ENEMY_SHOOT_RANGE ^ 2).

(** The [match self.current_action] of [BulletEnemy.step]. *)
Definition force_direction (e : t) (delta_target_ship : Vec2.t)
  (rnd : Random.draws) : Vec2.t :=
  match current_action e with
  | accelerate_to_player => delta_target_ship
  | accelerate_randomly =>
      Vec2.mk (Random.uniform (-1) 1 (Random.for_uniform_x rnd))
              (Random.uniform (-1) 1 (Random.for_uniform_y rnd))
  | decelerate => Vec2.neg (Ship.vel (ship e))
  end.

(** [BulletEnemy.step] *)
Definition step (dt : Q) (rnd : Random.draws) : M t unit :=
  modify (fun e => set_action_timer e (action_timer e - dt)) ;;
  e <- get ;;
  (if Qleb (action_timer e) 0 then
     modify (fun e =>
       set_current_action e
         (Random.choices accelerate_to_player actions [0.9; 0.05; 0.05]
            (Random.for_choices rnd))) ;;
     modify (fun e => set_action_timer e 6)
   else ret tt) ;;
  e <- get ;;
  target <- deref (target_ship e) ;;
  let delta_target_ship := Vec2.sub (Ship.pos target) (Ship.pos (ship e)) in
  let force_direction := force_direction e delta_target_ship rnd in
  force <- lift (Vec2.div (Vec2.scale force_direction (Ship.thrust (ship e)))
                          (magnitude force_direction)) ;;
  modify (on_ship (fun s =>
    Ship.set_disk s (apply_force (Ship.disk s) force dt))) ;;
  modify (on_ship (Ship.step dt)) ;;
  modify (on_ship (fun s =>
    Ship.set_angle s
      (atan2_degrees (Vec2.y (Ship.vel s)) (Vec2.x (Ship.vel s))))) ;;
  modify (fun e =>
    set_time_until_next_shot e (time_until_next_shot e - 1)) ;;
  e <- get ;;
  if in_range delta_target_ship && Qleb (time_until_next_shot e) 0 then
    modify (on_ship Ship.shoot) ;;
    modify (fun e => set_time_until_next_shot e (shoot_cooldown e))
  else ret tt.
(** The enemy as the first four lines of [step] leave it: the action
    timer has run down by [dt] and, if that brought it to zero or below,
    the action has been drawn again and the timer set to 6. *)
Definition after_reroll (dt : Q) (rnd : Random.draws) (e : t) : t :=
  let e := set_action_timer e (action_timer e - dt) in
  if Qleb (action_timer e) 0 then
    let e :=
      set_current_action e
        (Random.choices accelerate_to_player actions [0.9; 0.05; 0.05]
           (Random.for_choices rnd)) in
    set_action_timer e 6
  else e.

(** The enemy as the lines from [apply_force] to the decrement of the
    shot counter leave it. *)
Definition after_physics (dt : Q) (force : Vec2.t) (e : t) : t :=
  let e := on_ship (fun s =>
             Ship.set_disk s (apply_force (Ship.disk s) force dt)) e in
  let e := on_ship (Ship.step dt) e in
  let e := on_ship (fun s =>
             Ship.set_angle s
               (atan2_degrees (Vec2.y (Ship.vel s)) (Vec2.x (Ship.vel s)))) e in
  set_time_until_next_shot e (time_until_next_shot e - 1).

(** The closing [if] of [step]. *)
Definition shooting_logic (delta_target_ship : Vec2.t) (e : t) : t :=
  if in_range delta_target_ship && Qleb (time_until_next_shot e) 0 then
    let e := on_ship Ship.shoot e in
    set_time_until_next_shot e (shoot_cooldown e)
  else e.
End Methods.
End BulletEnemy.

(** ** Executable collaborators

    Rational stand-ins for the collaborators, used to run the methods on
    concrete ships. *)

Module Reference.
(** Square root through the integer square root of numerator times
    denominator; exact on squares of rationals. *)
Definition isqrtQ (q : Q) : Q :=
  Z.sqrt (Qnum q * Zpos (Qden q)) # Qden q.

(** Sine of an angle in degrees by Bhaskara's rational formula, exact at
    the multiples of 90. *)
Definition sin_deg (phi : Q) : Q :=
  let a := phi - 360 * inject_Z (Qfloor (phi / 360)) in
  let half (b : Q) := 4 * b * (180 - b) / (40500 - b * (180 - b)) in
  if Qleb a 180 then half a else - half (a - 180).

Definition cos_deg (phi : Q) : Q := sin_deg (phi + 90).

Definition polar (r phi : Q) : Vec2.t :=
  Vec2.mk (r * Qred (cos_deg phi)) (r * Qred (sin_deg phi)).

(** Direction of [(x, y)] in degrees, exact on the axes and linear in
    between. *)
Definition direction_deg (y x : Q) : Q :=
  let n := Qabs x + Qabs y in
  if Qeq_bool n 0 then 0
  else if Qleb 0 x then 90 * (y / n)
  else if Qleb 0 y then 180 - 90 * (y / n)
  else - 180 - 90 * (y / n).

#[export] Instance vector_math : VectorMath :=
  {| sqrtQ := isqrtQ; from_polar := polar; atan2_degrees := direction_deg |}.

(** Area of a disk with 355/113 for pi. *)
Definition disk_of (pos vel : Vec2.t) (density size : Q) (color : Color.t)
  : Disk.t :=
  Disk.mk pos vel (density * (355 # 113) * size * size) size color.

(** [pos += vel * dt] *)
Definition drift (d : Disk.t) (dt : Q) : Disk.t :=
  Disk.set_pos d (Vec2.add (Disk.pos d) (Vec2.scale (Disk.vel d) dt)).

(** [vel += force * dt / mass]; a massless body is left alone. *)
Definition push (d : Disk.t) (force : Vec2.t) (dt : Q) : Disk.t :=
  if Qeq_bool (Disk.mass d) 0 then d
  else Disk.mk (Disk.pos d)
         (Vec2.add (Disk.vel d) (Vec2.scale force (dt / Disk.mass d)))
         (Disk.mass d) (Disk.radius d) (Disk.color d).

(** Modelled from the spec: a projectile's tick is
    [position += velocity * dt] and nothing else. *)
Definition bullet_drift (b : Bullet.t) (dt : Q) : Bullet.t :=
  Bullet.mk (Vec2.add (Bullet.pos b) (Vec2.scale (Bullet.vel b) dt))
            (Bullet.vel b) (Bullet.mass b) (Bullet.color b).

#[export] Instance physics : Physics :=
  {| disk_init := disk_of; disk_step := drift; apply_force := push;
     bullet_step := bullet_drift |}.

(** A player-sized ship at the origin, and an enemy hunting it from 100
    units to the east. *)
Definition player : Ship.t :=
  Ship.init Vec2.zero Vec2.zero 1 10 (Color.mk 0 0 255 255).

Definition enemy : BulletEnemy.t :=
  BulletEnemy.init (Vec2.mk 100 0) Vec2.zero (Some player) 0.0125 Color.lime.

Definition rnd : Random.draws := Random.mk_draws 0.5 0.25 0.75.

(** The same enemy braking while at rest. *)
Definition braking : BulletEnemy.t :=
  BulletEnemy.set_current_action enemy BulletEnemy.decelerate.

(** An enemy whose target reference holds nothing. *)
Definition orphan : BulletEnemy.t :=
  BulletEnemy.init (Vec2.mk 100 0) Vec2.zero None 0.0125 Color.lime.

(** An enemy in range whose shot counter has run out while its gun is
    still cooling down. *)
Definition cooling : BulletEnemy.t :=
  BulletEnemy.set_time_until_next_shot
    (BulletEnemy.on_ship (fun s => Ship.set_gun_cooldown s 0.5) enemy)
    0.0125.

(** An enemy in range whose shot counter has run out, gun ready. *)
Definition ready : BulletEnemy.t :=
  BulletEnemy.set_time_until_next_shot enemy 0.0125.

(** A ship that has just been hit, with its last round loaded, facing
    east at the origin. *)
Definition gunner : Ship.t :=
  Ship.set_angle
    (Ship.set_ammo (Ship.suffer_damage 10 player) 1) 0.
End Reference.

(** ** Sequences of calls on a ship *)

Module Calls.
(** One call of a method of [Ship] by the code that owns the ship. *)
Inductive call : Type :=
| shoot
| suffer_damage (damage : Q)
| step (dt : Q).

(** No step of the list runs time backwards. *)
Definition forward_in_time (cs : list call) : Prop :=
  Forall (fun c => match c with step dt => 0 <= dt | _ => True end) cs.

Section Run.
Context {VM : VectorMath} {PH : Physics}.

Definition apply (c : call) (s : Ship.t) : Ship.t :=
  match c with
  | shoot => Ship.shoot s
  | suffer_damage damage => Ship.suffer_damage damage s
  | step dt => Ship.step dt s
  end.

(** The calls of the list made in turn, first to last. *)
Definition run (cs : list call) (s : Ship.t) : Ship.t :=
  fold_left (fun s c => apply c s) cs s.
End Run.
End Calls.

(** ** [class ShipInput] and [class PlayerShip(Ship)] *)

Module ShipInput.
(** The five key codes of [ShipInput.__init__]. *)
Record t : Type := mk {
  move_right : Z;
  move_left : Z;
  move_up : Z;
  move_down : Z;
  shoot : Z
}.
End ShipInput.

Module PlayerShip.
Record t : Type := mk {
  ship : Ship.t;
  spaceship_input : ShipInput.t
}.

Definition set_ship (p : t) (s : Ship.t) : t := mk s (spaceship_input p).

Definition set_move_right (s : Ship.t) (f : bool) : Ship.t :=
  Ship.mk (Ship.disk s) (Ship.size s) (Ship.angle s) (Ship.health s)
    (Ship.projectiles s) (Ship.gun_cooldown s) (Ship.has_trophy s)
    (Ship.ammo s) (Ship.thrust s) (Ship.rotation_thrust s)
    f (Ship.move_left s) (Ship.move_down s) (Ship.move_up s)
    (Ship.fuel_consumption_rate s) (Ship.fuel_rot_consumption_rate s)
    (Ship.damage_indicator_timer s).

Definition set_move_left (s : Ship.t) (f : bool) : Ship.t :=
  Ship.mk (Ship.disk s) (Ship.size s) (Ship.angle s) (Ship.health s)
    (Ship.projectiles s) (Ship.gun_cooldown s) (Ship.has_trophy s)
    (Ship.ammo s) (Ship.thrust s) (Ship.rotation_thrust s)
    (Ship.move_right s) f (Ship.move_down s) (Ship.move_up s)
    (Ship.fuel_consumption_rate s) (Ship.fuel_rot_consumption_rate s)
    (Ship.damage_indicator_timer s).

Definition set_move_down (s : Ship.t) (f : bool) : Ship.t :=
  Ship.mk (Ship.disk s) (Ship.size s) (Ship.angle s) (Ship.health s)
    (Ship.projectiles s) (Ship.gun_cooldown s) (Ship.has_trophy s)
    (Ship.ammo s) (Ship.thrust s) (Ship.rotation_thrust s)
    (Ship.move_right s) (Ship.move_left s) f (Ship.move_up s)
    (Ship.fuel_consumption_rate s) (Ship.fuel_rot_consumption_rate s)
    (Ship.damage_indicator_timer s).

Definition set_move_up (s : Ship.t) (f : bool) : Ship.t :=
  Ship.mk (Ship.disk s) (Ship.size s) (Ship.angle s) (Ship.health s)
    (Ship.projectiles s) (Ship.gun_cooldown s) (Ship.has_trophy s)
    (Ship.ammo s) (Ship.thrust s) (Ship.rotation_thrust s)
    (Ship.move_right s) (Ship.move_left s) (Ship.move_down s) f
    (Ship.fuel_consumption_rate s) (Ship.fuel_rot_consumption_rate s)
    (Ship.damage_indicator_timer s).

(** The four flags assigned as [handle_input] assigns them. *)
Definition with_flags (s : Ship.t) (r l u d : bool) : Ship.t :=
  set_move_down (set_move_up (set_move_left (set_move_right s r) l) u) d.

Section Methods.
Context {VM : VectorMath} {PH : Physics}.

(** [PlayerShip.__init__] *)
Definition init (pos vel : Vec2.t) (density size : Q) (color : Color.t)
  (spaceship_input : ShipInput.t) : t :=
  {| ship := Ship.init pos vel density size color;
     spaceship_input := spaceship_input |}.

(** [PlayerShip.handle_input]; [keys] is pygame's table of pressed keys,
    read as [keys[code]]. *)
Definition handle_input (keys : Z -> bool) (p : t) : t :=
  let i := spaceship_input p in
  let s := ship p in
  let s := set_move_right s (keys (ShipInput.move_right i)) in
  let s := set_move_left s (keys (ShipInput.move_left i)) in
  let s := set_move_up s (keys (ShipInput.move_up i)) in
  let s := set_move_down s (keys (ShipInput.move_down i)) in
  let s := if keys (ShipInput.shoot i) then Ship.shoot s else s in
  set_ship p s.
End Methods.
End PlayerShip.

(** ** Drawing *)

Definition HEAD_WIDTH : Q := 3.

Module Camera.
(** The calls a [Camera] receives. *)
Inductive command : Type :=
| draw_polygon (color : Color.t) (points : list Vec2.t)
| draw_line (color : Color.t) (a b : Vec2.t) (width : Q)
| draw_circle (color : Color.t) (pos : Vec2.t) (radius : Q).

Definition is_polygon (c : command) : bool :=
  match c with
  | draw_polygon _ _ => true
  | _ => false
  end.

Definition red : Color.t := Color.mk 255 0 0 255.
Definition white : Color.t := Color.mk 255 255 255 255.
End Camera.

(** What drawing calls from pygame and [physics.py]. *)
Class Rendering : Type := {
(** [Color.lerp(other, amount)]; [None] is the [ValueError] with which
    pygame rejects an amount. *)
  lerp : Color.t -> Color.t -> Q -> option Color.t;
(** Modelled from the spec: [Disk.draw(camera)] draws the circular body;
    the calls it makes on the camera. *)
  disk_draw : Disk.t -> list Camera.command
}.

(** pygame takes the amount of a [lerp] from 0 to 1 and nothing else. *)
Class RenderingLaws (RD : Rendering) : Prop := {
  lerp_accepts : forall c d a, 0 <= a -> a <= 1 -> lerp c d a <> None;
  lerp_rejects : forall c d a, a < 0 \/ 1 < a -> lerp c d a = None
}.

Module Draw.
Definition set_color (s : Ship.t) (c : Color.t) : Ship.t :=
  Ship.set_disk s
    (Disk.mk (Ship.pos s) (Ship.vel s) (Disk.mass (Ship.disk s))
       (Ship.radius s) c).

(** [Bullet.draw]: the call it makes on the camera. *)
Definition bullet (b : Bullet.t) : Camera.command :=
  Camera.draw_circle (Bullet.color b) (Bullet.pos b) 4.

(** The helper [drawy] of [Ship.draw]: a polygon given relative to the
    position of the ship, in units of its radius. *)
Definition drawy (s : Ship.t) (color : Color.t) (points : list Vec2.t)
  : Camera.command :=
  Camera.draw_polygon color
    (map (fun p => Vec2.add (Ship.pos s) (Vec2.scale p (Ship.radius s)))
         points).

(** [a * u + b * v] *)
Definition comb (a : Q) (u : Vec2.t) (b : Q) (v : Vec2.t) : Vec2.t :=
  Vec2.add (Vec2.scale u a) (Vec2.scale v b).

Section Methods.
Context {VM : VectorMath} {RD : Rendering}.

(** [Ship.draw]: the ship as the method leaves it and the calls made on
    the camera, oldest first; [None] when a [lerp] raises. *)
Definition ship (s : Ship.t) : option (Ship.t * list Camera.command) :=
  let forward := Ship.get_faced_direction s in
  let right := Vec2.mk (- Vec2.y forward) (Vec2.x forward) in
  let left := Vec2.neg right in
  let backward := Vec2.neg forward in
  match lerp (Ship.color s) Camera.red (Ship.damage_indicator_timer s) with
  | None => None
  | Some base_color =>
  match lerp base_color Color.black 0.5 with
  | None => None
  | Some darker_color =>
    let cam := [] in
    let cam :=
      if Ship.move_down s then
        cam ++ [drawy s Camera.white
                  [Vec2.scale forward 2; Vec2.scale left 1.25;
                   Vec2.scale right 1.25]]
      else cam in
    let cam :=
      cam ++ [Camera.draw_line darker_color (Ship.pos s)
                (Vec2.add (Ship.pos s)
                   (Vec2.scale (Vec2.scale forward (Ship.radius s))
                      HEAD_LENGTH))
                (HEAD_WIDTH * Ship.radius s)] in
    let cam :=
      cam ++ [drawy s darker_color
                [comb 0.7 left 0.7 forward; comb 0.5 left 0.5 backward;
                 comb 2.0 left 4.0 backward]] in
    let cam :=
      if Ship.move_right s then
        cam ++ [drawy s Camera.white
                  [comb 1.5 left 1.25 backward; comb 0.5 left 0.5 backward;
                   comb 2.0 left 1.0 backward]]
      else cam in
    let cam :=
      cam ++ [drawy s darker_color
                [comb 0.7 right 0.7 forward; comb 0.5 right 0.5 backward;
                 comb 2.0 right 4.0 backward]] in
    let cam :=
      if Ship.move_left s then
        cam ++ [drawy s Camera.white
                  [comb 1.5 right 1.25 backward; comb 0.5 right 0.5 backward;
                   comb 2.0 right 1.0 backward]]
      else cam in
    let cam :=
      if Ship.move_up s then
        cam ++ [drawy s Camera.white
                  [comb 0.7 left 0.7 backward; comb 0.5 left 1.5 backward;
                   Vec2.scale backward 1.25; comb 0.5 right 1.5 backward;
                   comb 0.7 right 0.7 backward]]
      else cam in
    let cam :=
      cam ++ [drawy s darker_color
                [comb 0.7 left 0.7 backward; comb 0.5 left 1.25 backward;
                 Vec2.scale backward 1.0; comb 0.5 right 1.25 backward;
                 comb 0.7 right 0.7 backward]] in
    let backup_self_color := Ship.color s in
    let s := set_color s base_color in
    let cam := cam ++ disk_draw (Ship.disk s) in
    let s := set_color s backup_self_color in
    let cam := cam ++ map bullet (Ship.projectiles s) in
    Some (s, cam)
  end
  end.
End Methods.
End Draw.

(** ** An enemy over several frames *)

Module Hunt.
(** One frame of the game loop as an enemy sees it: the time passed, the
    random values it will draw and the state of its target. *)
Record frame : Type := mk {
  dt : Q;
  rnd : Random.draws;
  target : option Ship.t
}.

Definition set_target_ship (e : BulletEnemy.t) (o : option Ship.t)
  : BulletEnemy.t :=
  BulletEnemy.mk (BulletEnemy.ship e) (BulletEnemy.time_until_next_shot e)
    (BulletEnemy.action_timer e) (BulletEnemy.current_action e) o
    (BulletEnemy.shoot_cooldown e).

Section Run.
Context {VM : VectorMath} {PH : Physics}.
Open Scope monad_scope.

(** [step] called once per frame; an exception ends the run. *)
Fixpoint run (fs : list frame) : M BulletEnemy.t unit :=
  match fs with
  | [] => ret tt
  | f :: fs' =>
      modify (fun e => set_target_ship e (target f)) ;;
      BulletEnemy.step (dt f) (rnd f) ;;
      run fs'
  end.
End Run.
End Hunt.

(** ** [Ship.step] with its effects in order *)

Module Trace.
(** What one statement of [Ship.step] does to the ship or asks of a
    collaborator. *)
Inductive event : Type :=
(** [self.pos += offset] *)
| moved (offset : Vec2.t)
(** [self.damage_indicator_timer = max(0, self.damage_indicator_timer - dt)] *)
| damage_indicator_decayed (dt : Q)
(** [super().step(dt)] *)
| base_stepped (dt : Q)
(** [projectile.step(dt)], with the projectile as it was before the call *)
| projectile_stepped (projectile : Bullet.t) (dt : Q)
(** [self.gun_cooldown = max(0, self.gun_cooldown - dt)] *)
| gun_cooldown_decayed (dt : Q).

(** [if flag: self.pos += offset], with its event. *)
Definition nudge (flag : bool) (offset : Vec2.t)
  (sl : Ship.t * list event) : Ship.t * list event :=
  let (s, log) := sl in
  if flag then
    (Ship.set_pos s (Vec2.add (Ship.pos s) offset), log ++ [moved offset])
  else (s, log).

(** The four [if]s on the movement flags that open [Ship.step]; the
    call of [get_faced_direction] between them changes nothing and is
    left out, as in [Ship.step]. *)
Definition moves (s : Ship.t) : Ship.t * list event :=
  let sl := (s, []) in
  let sl := nudge (Ship.move_right (fst sl)) (Vec2.mk SPEED 0) sl in
  let sl := nudge (Ship.move_left (fst sl)) (Vec2.mk (- SPEED) 0) sl in
  let sl := nudge (Ship.move_up (fst sl)) (Vec2.mk 0 (- SPEED)) sl in
  nudge (Ship.move_down (fst sl)) (Vec2.mk 0 SPEED) sl.

Section Methods.
Context {VM : VectorMath} {PH : Physics}.

(** [Ship.step], statement by statement: the ship as each statement
    leaves it and the events so far, oldest first. *)
Definition step (dt : Q) (s : Ship.t) : Ship.t * list event :=
  let sl := moves s in
  let sl := (Ship.decay_damage_indicator dt (fst sl),
             snd sl ++ [damage_indicator_decayed dt]) in
  let sl := (Ship.base_step dt (fst sl), snd sl ++ [base_stepped dt]) in
  let sl := (Ship.step_projectiles dt (fst sl),
             snd sl ++
             map (fun p => projectile_stepped p dt)
                 (Ship.projectiles (fst sl))) in
  (Ship.decay_gun_cooldown dt (fst sl), snd sl ++ [gun_cooldown_decayed dt]).
End Methods.
End Trace.

(** ** An executable renderer *)

Module Studio.
(** One channel of a blend, rounded to the nearest integer. *)
Definition blend (x y : Z) (amount : Q) : Z :=
  Qfloor (inject_Z x * (1 - amount) + inject_Z y * amount + (1 # 2)).

Definition mix (c d : Color.t) (amount : Q) : option Color.t :=
  if Qleb 0 amount && Qleb amount 1 then
    Some (Color.mk (blend (Color.r c) (Color.r d) amount)
                   (blend (Color.g c) (Color.g d) amount)
                   (blend (Color.b c) (Color.b d) amount)
                   (blend (Color.a c) (Color.a d) amount))
  else None.

(** The body as one circle of the disk's color and radius. *)
Definition body (d : Disk.t) : list Camera.command :=
  [Camera.draw_circle (Disk.color d) (Disk.pos d) (Disk.radius d)].

#[export] Instance rendering : Rendering :=
  {| lerp := mix; disk_draw := body |}.

(** Three short frames in which the target stays where it is. *)
Definition frames : list Hunt.frame :=
  [Hunt.mk 0.016 (Random.mk_draws 0.5 0.25 0.75) (Some Reference.player);
   Hunt.mk 0.016 (Random.mk_draws 0.1 0.5 0.5) (Some Reference.player);
   Hunt.mk 0.032 (Random.mk_draws 0.93 0.2 0.9) (Some Reference.player)].

(** A shot, a tick, a hit and a refused hit. *)
Definition calls : list Calls.call :=
  [Calls.shoot; Calls.step 0.016; Calls.suffer_damage 5;
   Calls.shoot; Calls.suffer_damage (-3); Calls.step 1].
End Studio.

(** * Properties *)

(** ** Comparisons *)

Lemma Qleb_le (a b : Q) : Qleb a b = true <-> a <= b.
Proof. unfold Qleb. apply Qle_bool_iff. Qed.

Lemma Qleb_gt (a b : Q) : Qleb a b = false <-> b < a.
Proof.
  unfold Qleb. rewrite <- not_true_iff_false, Qle_bool_iff.
  split; [apply Qnot_le_lt | apply Qlt_not_le].
Qed.

Lemma Qltb_lt (a b : Q) : Qltb a b = true <-> a < b.
Proof. unfold Qltb. rewrite negb_true_iff. apply Qleb_gt. Qed.

Lemma Qltb_ge (a b : Q) : Qltb a b = false <-> b <= a.
Proof. unfold Qltb. rewrite negb_false_iff. apply Qleb_le. Qed.

Lemma py_max_lower (a b : Q) : a <= py_max a b.
Proof.
  unfold py_max. destruct (Qltb a b) eqn:E.
  - apply Qltb_lt in E. lra.
  - lra.
Qed.

Lemma py_max_upper (a b c : Q) : a <= c -> b <= c -> py_max a b <= c.
Proof. unfold py_max. destruct (Qltb a b); auto. Qed.

(** ** The reference collaborators satisfy the laws *)

Lemma reference_laws : VectorMathLaws Reference.vector_math.
Proof.
  constructor.
  - intros [n d] Hq. unfold Qeq in Hq. simpl in *.
    assert (n = 0)%Z by lia. subst n. reflexivity.
  - intros r. split; simpl.
    + change (Qred (Reference.cos_deg 0)) with 1. ring.
    + change (Qred (Reference.sin_deg 0)) with 0. ring.
Qed.

Section ShipFacts.
Context {VM : VectorMath} {PH : Physics}.

Lemma can_shoot_iff (s : Ship.t) :
  Ship.can_shoot s = true <-> Ship.gun_cooldown s <= 0 /\ (0 < Ship.ammo s)%Z.
Proof.
  unfold Ship.can_shoot.
  rewrite andb_true_iff, Qleb_le, Z.ltb_lt. reflexivity.
Qed.

Lemma cannot_shoot_iff (s : Ship.t) :
  Ship.can_shoot s = false <-> 0 < Ship.gun_cooldown s \/ (Ship.ammo s <= 0)%Z.
Proof.
  unfold Ship.can_shoot.
  rewrite andb_false_iff, Qleb_gt, Z.ltb_ge. reflexivity.
Qed.

Lemma shoot_refused (s : Ship.t) :
  Ship.can_shoot s = false -> Ship.shoot s = s.
Proof. intros H. unfold Ship.shoot. now rewrite H. Qed.

Lemma shoot_fired (s : Ship.t) :
  Ship.can_shoot s = true ->
  let forward := Ship.get_faced_direction s in
  let b :=
    Bullet.init
      (Vec2.add (Ship.pos s)
         (Vec2.scale (Vec2.scale forward (Ship.radius s)) HEAD_LENGTH))
      (Vec2.add (Ship.vel s) (Vec2.scale forward BULLET_SPEED))
      (Ship.color s) in
  Ship.shoot s =
    Ship.set_ammo
      (Ship.set_gun_cooldown
         (Ship.set_projectiles s (Ship.projectiles s ++ [b])) 0.5)
      (Ship.ammo s - 1)%Z.
Proof. intros H. unfold Ship.shoot. now rewrite H. Qed.

(** C1 (defect of [Bullet.__init__]): whenever [shoot()] succeeds, the
    projectile it appends is black, whatever the color of the firing
    ship; for a ship that is not black, the projectile's color therefore
    differs from the ship's, although [shoot] hands the ship's color to
    the constructor. *)
Theorem shoot_bullet_color_is_black (s : Ship.t) :
  Ship.can_shoot s = true ->
  Ship.color s <> Color.black ->
  exists b,
    Ship.projectiles (Ship.shoot s) = Ship.projectiles s ++ [b] /\
    Bullet.color b = Color.black /\
    Bullet.color b <> Ship.color s.
Proof.
  intros Hgo Hcol. rewrite (shoot_fired s Hgo). simpl.
  eexists. split; [reflexivity|]. simpl. split; [reflexivity|].
  intros E. apply Hcol. now rewrite E.
Qed.

(** C3: [shoot()] changes nothing unless [gun_cooldown <= 0] and
    [ammo > 0]; when it fires it appends exactly one projectile, at
    [pos + facing * radius * HEAD_LENGTH] with velocity
    [vel + facing * 300], where [facing] is the polar vector of length 1
    at the ship's own [angle], sets the gun cooldown to 0.5 and takes one
    round of ammo.  With ammo 1, cooldown 0, position (0,0) and angle 0
    the projectile is at [(radius * HEAD_LENGTH, 0)] with velocity
    [(vel.x + 300, vel.y)], ammo becomes 0 and the cooldown 0.5. *)
Theorem shoot_guard_and_effect (s : Ship.t) :
  (Ship.can_shoot s = true <->
     Ship.gun_cooldown s <= 0 /\ (0 < Ship.ammo s)%Z) /\
  (Ship.can_shoot s = false -> Ship.shoot s = s) /\
  (Ship.can_shoot s = true ->
     exists b,
       Ship.projectiles (Ship.shoot s) = Ship.projectiles s ++ [b] /\
       Bullet.pos b =
         Vec2.add (Ship.pos s)
           (Vec2.scale
              (Vec2.scale (from_polar 1 (Ship.angle s)) (Ship.radius s))
              HEAD_LENGTH) /\
       Bullet.vel b =
         Vec2.add (Ship.vel s)
           (Vec2.scale (from_polar 1 (Ship.angle s)) 300) /\
       Ship.gun_cooldown (Ship.shoot s) = 0.5 /\
       Ship.ammo (Ship.shoot s) = (Ship.ammo s - 1)%Z /\
       Ship.disk (Ship.shoot s) = Ship.disk s /\
       Ship.health (Ship.shoot s) = Ship.health s) /\
  (VectorMathLaws VM ->
   Ship.ammo s = 1%Z -> Ship.gun_cooldown s == 0 ->
   Vec2.eq (Ship.pos s) Vec2.zero -> Ship.angle s = 0 ->
     exists b,
       Ship.projectiles (Ship.shoot s) = Ship.projectiles s ++ [b] /\
       Vec2.eq (Bullet.pos b) (Vec2.mk (Ship.radius s * HEAD_LENGTH) 0) /\
       Vec2.eq (Bullet.vel b)
         (Vec2.mk (Vec2.x (Ship.vel s) + 300) (Vec2.y (Ship.vel s))) /\
       Ship.ammo (Ship.shoot s) = 0%Z /\
       Ship.gun_cooldown (Ship.shoot s) == 0.5).
Proof.
  split; [apply can_shoot_iff|].
  split; [apply shoot_refused|].
  split.
  - intros Hgo. rewrite (shoot_fired s Hgo). simpl.
    eexists. split; [reflexivity|]. simpl. repeat split; reflexivity.
  - intros Laws Hammo Hcool [Hx Hy] Hangle.
    assert (Hgo : Ship.can_shoot s = true).
    { apply can_shoot_iff. rewrite Hammo. split; [lra|lia]. }
    rewrite (shoot_fired s Hgo). simpl.
    eexists. split; [reflexivity|].
    unfold Ship.get_faced_direction. rewrite Hangle.
    destruct (from_polar_east 1) as [Fx Fy]. simpl in Fx, Fy.
    simpl in Hx, Hy.
    unfold Vec2.eq, BULLET_SPEED, HEAD_LENGTH. simpl.
    rewrite Fx, Fy, Hx, Hy, Hammo.
    repeat split; try reflexivity; ring.
Qed.

(** C4: [suffer_damage] with an amount [<= 0] leaves the ship as it is
    (health and damage-indicator timer included); with an amount [> 0]
    health drops by exactly that amount and the damage-indicator timer
    becomes 0.75, whatever it was before. *)
Theorem suffer_damage_guard_and_reset (damage : Q) (s : Ship.t) :
  (damage <= 0 -> Ship.suffer_damage damage s = s) /\
  (0 < damage ->
     Ship.health (Ship.suffer_damage damage s) = Ship.health s - damage /\
     Ship.damage_indicator_timer (Ship.suffer_damage damage s) = 0.75).
Proof.
  unfold Ship.suffer_damage. split; intros H.
  - apply Qltb_ge in H. now rewrite H.
  - apply Qltb_lt in H. rewrite H. split; reflexivity.
Qed.

Lemma apply_movement_frame (s : Ship.t) :
  Ship.apply_movement s = Ship.set_pos s (Ship.pos (Ship.apply_movement s)).
Proof.
  destruct s as [[p v m r c] sz an he pr gc tr am th rt mr ml md mu f1 f2 dm].
  unfold Ship.apply_movement. simpl.
  destruct mr, ml, mu, md; reflexivity.
Qed.

Lemma step_gun_cooldown (dt : Q) (s : Ship.t) :
  Ship.gun_cooldown (Ship.step dt s) = py_max 0 (Ship.gun_cooldown s - dt).
Proof.
  unfold Ship.step. rewrite (apply_movement_frame s). reflexivity.
Qed.

Lemma step_damage_indicator_timer (dt : Q) (s : Ship.t) :
  Ship.damage_indicator_timer (Ship.step dt s) =
  py_max 0 (Ship.damage_indicator_timer s - dt).
Proof.
  unfold Ship.step. rewrite (apply_movement_frame s). reflexivity.
Qed.

Lemma step_ammo (dt : Q) (s : Ship.t) :
  Ship.ammo (Ship.step dt s) = Ship.ammo s.
Proof.
  unfold Ship.step. rewrite (apply_movement_frame s). reflexivity.
Qed.

Lemma step_projectiles (dt : Q) (s : Ship.t) :
  Ship.projectiles (Ship.step dt s) =
  map (fun p => bullet_step p dt) (Ship.projectiles s).
Proof.
  unfold Ship.step. rewrite (apply_movement_frame s). reflexivity.
Qed.

(** Whatever [dt] is, a tick leaves both timers at or above zero. *)
Lemma step_timers_floor (dt : Q) (s : Ship.t) :
  0 <= Ship.gun_cooldown (Ship.step dt s) /\
  0 <= Ship.damage_indicator_timer (Ship.step dt s).
Proof.
  rewrite step_gun_cooldown, step_damage_indicator_timer.
  split; apply py_max_lower.
Qed.

Lemma shoot_out_of_ammo (n : nat) (s : Ship.t) :
  (Ship.ammo s <= 0)%Z -> Nat.iter n Ship.shoot s = s.
Proof.
  intros H. induction n as [|n IH]; [reflexivity|].
  simpl. rewrite IH. apply shoot_refused, cannot_shoot_iff. now right.
Qed.

Lemma shoot_invariant (s : Ship.t) :
  Ship.invariant s -> Ship.invariant (Ship.shoot s).
Proof.
  intros (Hc & Ht & Ha). destruct (Ship.can_shoot s) eqn:E.
  - rewrite (shoot_fired s E). apply can_shoot_iff in E.
    unfold Ship.invariant. simpl. repeat split; try tauto; try lra; lia.
  - rewrite (shoot_refused s E). repeat split; tauto.
Qed.

Lemma suffer_damage_invariant (damage : Q) (s : Ship.t) :
  Ship.invariant s -> Ship.invariant (Ship.suffer_damage damage s).
Proof.
  intros (Hc & Ht & Ha). unfold Ship.suffer_damage.
  destruct (Qltb 0 damage); [|repeat split; tauto].
  unfold Ship.invariant, DAMAGE_INDICATOR_TIME. simpl.
  repeat split; try assumption; lra.
Qed.

Lemma step_invariant (dt : Q) (s : Ship.t) :
  0 <= dt -> Ship.invariant s -> Ship.invariant (Ship.step dt s).
Proof.
  intros Hdt (Hc & (Ht0 & Ht1) & Ha). unfold Ship.invariant.
  rewrite step_gun_cooldown, step_damage_indicator_timer, step_ammo.
  repeat split; try apply py_max_lower; try assumption.
  apply py_max_upper; unfold DAMAGE_INDICATOR_TIME in *; lra.
Qed.

(** C5: with [dt >= 0], [shoot], [suffer_damage] and [step] keep the
    gun cooldown at or above 0, the damage-indicator timer within
    [0, 0.75] and ammo at or above 0; a tick of any length, however
    large, leaves neither timer below 0; and a ship without ammo that
    calls [shoot()] any number of times gains no projectile. *)
Theorem ship_invariants_preserved (s : Ship.t) :
  Ship.invariant s ->
  Ship.invariant (Ship.shoot s) /\
  (forall damage, Ship.invariant (Ship.suffer_damage damage s)) /\
  (forall dt, 0 <= dt -> Ship.invariant (Ship.step dt s)) /\
  (forall dt,
     0 <= Ship.gun_cooldown (Ship.step dt s) /\
     0 <= Ship.damage_indicator_timer (Ship.step dt s)) /\
  (Ship.ammo s = 0%Z ->
   forall n,
     Ship.projectiles (Nat.iter n Ship.shoot s) = Ship.projectiles s /\
     Ship.ammo (Nat.iter n Ship.shoot s) = 0%Z).
Proof.
  intros Hinv. split; [now apply shoot_invariant|].
  split; [intros; now apply suffer_damage_invariant|].
  split; [intros; now apply step_invariant|].
  split; [intros; apply step_timers_floor|].
  intros Hammo n. rewrite shoot_out_of_ammo by lia. now split.
Qed.







End ShipFacts.

Section EnemyFacts.
Context {VM : VectorMath} {PH : Physics}.

(** [step], phase by phase. *)
Lemma step_unfold (dt : Q) (rnd : Random.draws) (e : BulletEnemy.t) :
  BulletEnemy.step dt rnd e =
  let e1 := BulletEnemy.after_reroll dt rnd e in
  match BulletEnemy.target_ship e with
  | None => (e1, Raised AttributeError)
  | Some target =>
      let delta :=
        Vec2.sub (Ship.pos target) (Ship.pos (BulletEnemy.ship e)) in
      let fd := BulletEnemy.force_direction e1 delta rnd in
      match Vec2.div (Vec2.scale fd (Ship.thrust (BulletEnemy.ship e)))
                     (magnitude fd) with
      | Raised x => (e1, Raised x)
      | Returned force =>
          (BulletEnemy.shooting_logic delta
             (BulletEnemy.after_physics dt force e1), Returned tt)
      end
  end.
Proof.
  unfold BulletEnemy.step, BulletEnemy.after_reroll, bind, modify, get, ret,
    deref, lift.
  simpl.
  destruct (Qleb (BulletEnemy.action_timer e - dt) 0); simpl;
    (destruct (BulletEnemy.target_ship e) as [target|]; simpl;
     [|reflexivity]);
    match goal with
    | |- context [Vec2.div ?u ?k] => destruct (Vec2.div u k); simpl
    end; try reflexivity;
    unfold BulletEnemy.shooting_logic; simpl;
    match goal with
    | |- context [if ?c then _ else _] => destruct c
    end; reflexivity.
Qed.

(** The later phases of [step] leave the action and its timer alone. *)
Lemma step_action_fields (dt : Q) (rnd : Random.draws) (e : BulletEnemy.t) :
  let e' := fst (BulletEnemy.step dt rnd e) in
  let e1 := BulletEnemy.after_reroll dt rnd e in
  BulletEnemy.action_timer e' = BulletEnemy.action_timer e1 /\
  BulletEnemy.current_action e' = BulletEnemy.current_action e1.
Proof.
  cbv zeta. rewrite step_unfold. cbv zeta.
  destruct (BulletEnemy.target_ship e) as [target|]; [|split; reflexivity].
  match goal with
  | |- context [Vec2.div ?u ?k] => destruct (Vec2.div u k)
  end; [|split; reflexivity].
  unfold BulletEnemy.shooting_logic.
  match goal with
  | |- context [if ?c then _ else _] => destruct c
  end; split; reflexivity.
Qed.

(** The weighted draw as a function of the value of [random.random()]:
    the three actions own the intervals below 0.9, from 0.9 to 0.95 and
    from 0.95 on. *)
Lemma choices_intervals (u : Q) :
  let draw :=
    Random.choices BulletEnemy.accelerate_to_player BulletEnemy.actions
      [0.9; 0.05; 0.05] u in
  (u < 0.9 -> draw = BulletEnemy.accelerate_to_player) /\
  (0.9 <= u -> u < 0.95 -> draw = BulletEnemy.accelerate_randomly) /\
  (0.95 <= u -> draw = BulletEnemy.decelerate).
Proof.
  cbv zeta. unfold Random.choices, BulletEnemy.actions.
  cbn [Random.accumulate last length Nat.sub Random.bisect].
  set (c1 := 0 + 0.9). set (c2 := c1 + 0.05). set (c3 := c2 + 0.05).
  assert (E1 : c1 == 0.9) by (unfold c1; ring).
  assert (E2 : c2 == 0.95) by (unfold c2, c1; ring).
  assert (E3 : c3 + 0 == 1) by (unfold c3, c2, c1; ring).
  assert (Eu : u * (c3 + 0) == u) by (rewrite E3; ring).
  repeat split.
  - intros Hu.
    assert (H : Qleb c1 (u * (c3 + 0)) = false)
      by (apply Qleb_gt; rewrite Eu, E1; exact Hu).
    now rewrite H.
  - intros Hlo Hhi.
    assert (H1 : Qleb c1 (u * (c3 + 0)) = true)
      by (apply Qleb_le; rewrite Eu, E1; exact Hlo).
    assert (H2 : Qleb c2 (u * (c3 + 0)) = false)
      by (apply Qleb_gt; rewrite Eu, E2; exact Hhi).
    now rewrite H1, H2.
  - intros Hlo.
    assert (H1 : Qleb c1 (u * (c3 + 0)) = true)
      by (apply Qleb_le; rewrite Eu, E1; lra).
    assert (H2 : Qleb c2 (u * (c3 + 0)) = true)
      by (apply Qleb_le; rewrite Eu, E2; exact Hlo).
    now rewrite H1, H2.
Qed.

(** C7: every step takes [dt] off the action timer; while the timer
    stays above 0 the current action is kept; when it reaches 0 or less
    the action is drawn anew from the three actions, the draw giving
    [accelerate_to_player], [accelerate_randomly] and [decelerate] the
    shares 0.9, 0.05 and 0.05 of the unit interval, and the timer goes
    back to 6; an action is always one of the three. *)
Theorem action_reroll_rule (dt : Q) (rnd : Random.draws)
  (e : BulletEnemy.t) :
  let e' := fst (BulletEnemy.step dt rnd e) in
  let u := Random.for_choices rnd in
  let draw :=
    Random.choices BulletEnemy.accelerate_to_player BulletEnemy.actions
      [0.9; 0.05; 0.05] u in
  (0 < BulletEnemy.action_timer e - dt ->
     BulletEnemy.action_timer e' = BulletEnemy.action_timer e - dt /\
     BulletEnemy.current_action e' = BulletEnemy.current_action e) /\
  (BulletEnemy.action_timer e - dt <= 0 ->
     BulletEnemy.action_timer e' = 6 /\
     BulletEnemy.current_action e' = draw) /\
  ((u < 0.9 -> draw = BulletEnemy.accelerate_to_player) /\
   (0.9 <= u -> u < 0.95 -> draw = BulletEnemy.accelerate_randomly) /\
   (0.95 <= u -> draw = BulletEnemy.decelerate)) /\
  (forall a : BulletEnemy.Action,
     a = BulletEnemy.accelerate_to_player \/
     a = BulletEnemy.accelerate_randomly \/
     a = BulletEnemy.decelerate).
Proof.
  cbv zeta.
  destruct (step_action_fields dt rnd e) as [Ht Ha]. rewrite Ht, Ha.
  unfold BulletEnemy.after_reroll. simpl.
  split; [|split; [|split]].
  - intros H. apply Qleb_gt in H. rewrite H. split; reflexivity.
  - intros H. apply Qleb_le in H. rewrite H. split; reflexivity.
  - apply choices_intervals.
  - intros []; auto.
Qed.

(** *** Frames of the phases *)

Lemma after_reroll_frame (dt : Q) (rnd : Random.draws) (e : BulletEnemy.t) :
  let e1 := BulletEnemy.after_reroll dt rnd e in
  BulletEnemy.ship e1 = BulletEnemy.ship e /\
  BulletEnemy.time_until_next_shot e1 = BulletEnemy.time_until_next_shot e /\
  BulletEnemy.shoot_cooldown e1 = BulletEnemy.shoot_cooldown e /\
  BulletEnemy.target_ship e1 = BulletEnemy.target_ship e.
Proof.
  cbv zeta. unfold BulletEnemy.after_reroll. simpl.
  destruct (Qleb (BulletEnemy.action_timer e - dt) 0); repeat split.
Qed.

Lemma after_physics_ship (dt : Q) (force : Vec2.t) (e : BulletEnemy.t) :
  BulletEnemy.ship (BulletEnemy.after_physics dt force e) =
  let s1 := Ship.set_disk (BulletEnemy.ship e)
              (apply_force (Ship.disk (BulletEnemy.ship e)) force dt) in
  let s2 := Ship.step dt s1 in
  Ship.set_angle s2
    (atan2_degrees (Vec2.y (Ship.vel s2)) (Vec2.x (Ship.vel s2))).
Proof. reflexivity. Qed.

Lemma after_physics_fields (dt : Q) (force : Vec2.t) (e : BulletEnemy.t) :
  let e2 := BulletEnemy.after_physics dt force e in
  let s := BulletEnemy.ship e in
  BulletEnemy.time_until_next_shot e2 =
    BulletEnemy.time_until_next_shot e - 1 /\
  BulletEnemy.shoot_cooldown e2 = BulletEnemy.shoot_cooldown e /\
  Ship.ammo (BulletEnemy.ship e2) = Ship.ammo s /\
  Ship.gun_cooldown (BulletEnemy.ship e2) =
    py_max 0 (Ship.gun_cooldown s - dt) /\
  Ship.projectiles (BulletEnemy.ship e2) =
    map (fun p => bullet_step p dt) (Ship.projectiles s).
Proof.
  cbv zeta. rewrite after_physics_ship. cbv zeta.
  set (s1 := Ship.set_disk (BulletEnemy.ship e) _).
  generalize (step_ammo dt s1) (step_gun_cooldown dt s1)
    (step_projectiles dt s1).
  generalize (Ship.step dt s1). intros s2 Ha Hg Hp.
  split; [reflexivity|]. split; [reflexivity|].
  split; [exact Ha|]. split; [exact Hg|exact Hp].
Qed.

Lemma set_angle_timer (s : Ship.t) (a : Q) :
  Ship.damage_indicator_timer (Ship.set_angle s a) =
  Ship.damage_indicator_timer s.
Proof. reflexivity. Qed.

Lemma set_disk_timer (s : Ship.t) (d : Disk.t) :
  Ship.damage_indicator_timer (Ship.set_disk s d) =
  Ship.damage_indicator_timer s.
Proof. reflexivity. Qed.

Lemma after_physics_timer (dt : Q) (force : Vec2.t) (e : BulletEnemy.t) :
  Ship.damage_indicator_timer
    (BulletEnemy.ship (BulletEnemy.after_physics dt force e)) =
  py_max 0 (Ship.damage_indicator_timer (BulletEnemy.ship e) - dt).
Proof.
  rewrite after_physics_ship. cbv zeta.
  rewrite set_angle_timer, step_damage_indicator_timer, set_disk_timer.
  reflexivity.
Qed.

(** A step that returns has gone through all the phases, with some
    force; a step that raises has stopped after the first. *)
Lemma step_returned (dt : Q) (rnd : Random.draws) (e : BulletEnemy.t)
  (target : Ship.t) :
  BulletEnemy.target_ship e = Some target ->
  snd (BulletEnemy.step dt rnd e) = Returned tt ->
  exists force,
    fst (BulletEnemy.step dt rnd e) =
    BulletEnemy.shooting_logic
      (Vec2.sub (Ship.pos target) (Ship.pos (BulletEnemy.ship e)))
      (BulletEnemy.after_physics dt force
         (BulletEnemy.after_reroll dt rnd e)).
Proof.
  intros Ht. rewrite step_unfold, Ht. cbv zeta.
  match goal with
  | |- context [Vec2.div ?u ?k] => destruct (Vec2.div u k) as [force|x]
  end; simpl.
  - intros _. now exists force.
  - discriminate.
Qed.

Lemma step_raised (dt : Q) (rnd : Random.draws) (e : BulletEnemy.t)
  (x : exn) :
  snd (BulletEnemy.step dt rnd e) = Raised x ->
  fst (BulletEnemy.step dt rnd e) = BulletEnemy.after_reroll dt rnd e.
Proof.
  rewrite step_unfold. cbv zeta.
  destruct (BulletEnemy.target_ship e) as [target|]; [|reflexivity].
  match goal with
  | |- context [Vec2.div ?u ?k] => destruct (Vec2.div u k) as [force|y]
  end; simpl; [discriminate|reflexivity].
Qed.

Lemma step_outcome (dt : Q) (rnd : Random.draws) (e : BulletEnemy.t) :
  snd (BulletEnemy.step dt rnd e) = Returned tt \/
  exists x, snd (BulletEnemy.step dt rnd e) = Raised x.
Proof.
  destruct (snd (BulletEnemy.step dt rnd e)) as [[]|x]; eauto.
Qed.

Lemma shooting_logic_closed (delta : Vec2.t) (e : BulletEnemy.t) :
  BulletEnemy.in_range delta && Qleb (BulletEnemy.time_until_next_shot e) 0
    = false ->
  BulletEnemy.shooting_logic delta e = e.
Proof. intros H. unfold BulletEnemy.shooting_logic. now rewrite H. Qed.

Lemma shooting_logic_open (delta : Vec2.t) (e : BulletEnemy.t) :
  BulletEnemy.in_range delta && Qleb (BulletEnemy.time_until_next_shot e) 0
    = true ->
  BulletEnemy.shooting_logic delta e =
  BulletEnemy.set_time_until_next_shot
    (BulletEnemy.on_ship Ship.shoot e) (BulletEnemy.shoot_cooldown e).
Proof. intros H. unfold BulletEnemy.shooting_logic. now rewrite H. Qed.

Lemma gate_open_iff (delta : Vec2.t) (c : Q) :
  BulletEnemy.in_range delta && Qleb c 0 = true <->
  Vec2.magnitude_squared delta < ENEMY_SHOOT_RANGE ^ 2 /\ c <= 0.
Proof.
  unfold BulletEnemy.in_range.
  rewrite andb_true_iff, Qltb_lt, Qleb_le. reflexivity.
Qed.

(** C8: within a step, [shoot()] is called only when the squared
    distance to the target is below [400^2] and the shot counter, which
    every returning step lowers by 1 whatever [dt] is, has reached 0 or
    less.  A ship at 400 units or more from its target gains no
    projectile and loses no ammo, whatever its counter; with the gate
    shut the weapon state is the one the plain tick leaves; with the gate
    open the ship is the result of [shoot()] and the counter is set to
    [shoot_cooldown]. *)
Theorem enemy_shooting_gate (dt : Q) (rnd : Random.draws)
  (e : BulletEnemy.t) (target : Ship.t) :
  BulletEnemy.target_ship e = Some target ->
  let e' := fst (BulletEnemy.step dt rnd e) in
  let s := BulletEnemy.ship e in
  let s' := BulletEnemy.ship e' in
  let delta := Vec2.sub (Ship.pos target) (Ship.pos s) in
  let counter := BulletEnemy.time_until_next_shot e - 1 in
  let stepped := map (fun p => bullet_step p dt) (Ship.projectiles s) in
  ENEMY_SHOOT_RANGE ^ 2 == 400 * 400 /\
  (ENEMY_SHOOT_RANGE ^ 2 <= Vec2.magnitude_squared delta ->
     Ship.ammo s' = Ship.ammo s /\
     length (Ship.projectiles s') = length (Ship.projectiles s)) /\
  (snd (BulletEnemy.step dt rnd e) = Returned tt ->
     (~ (Vec2.magnitude_squared delta < ENEMY_SHOOT_RANGE ^ 2 /\
         counter <= 0) ->
        BulletEnemy.time_until_next_shot e' = counter /\
        Ship.ammo s' = Ship.ammo s /\
        Ship.projectiles s' = stepped /\
        Ship.gun_cooldown s' = py_max 0 (Ship.gun_cooldown s - dt)) /\
     (Vec2.magnitude_squared delta < ENEMY_SHOOT_RANGE ^ 2 ->
      counter <= 0 ->
        BulletEnemy.time_until_next_shot e' = BulletEnemy.shoot_cooldown e /\
        exists before,
          s' = Ship.shoot before /\
          Ship.ammo before = Ship.ammo s /\
          Ship.projectiles before = stepped /\
          Ship.gun_cooldown before = py_max 0 (Ship.gun_cooldown s - dt))).
Proof.
  intros Ht. cbv zeta.
  destruct (after_reroll_frame dt rnd e) as (Fs & Fc & Fk & _).
  assert (Hret :
    snd (BulletEnemy.step dt rnd e) = Returned tt ->
    exists force,
      fst (BulletEnemy.step dt rnd e) =
      BulletEnemy.shooting_logic
        (Vec2.sub (Ship.pos target) (Ship.pos (BulletEnemy.ship e)))
        (BulletEnemy.after_physics dt force
           (BulletEnemy.after_reroll dt rnd e)))
    by (apply step_returned; exact Ht).
  split; [reflexivity|]. split.
  - intros Hfar.
    destruct (step_outcome dt rnd e) as [R|[x R]].
    + destruct (Hret R) as [force ->].
      destruct (after_physics_fields dt force
                  (BulletEnemy.after_reroll dt rnd e))
        as (_ & _ & Ha & _ & Hp). cbv zeta in Ha, Hp.
      rewrite shooting_logic_closed.
      * rewrite Ha, Hp, Fs, length_map. split; reflexivity.
      * apply andb_false_iff. left. apply Qltb_ge. exact Hfar.
    + rewrite (step_raised dt rnd e x R), Fs. split; reflexivity.
  - intros R. destruct (Hret R) as [force ->].
    destruct (after_physics_fields dt force
                (BulletEnemy.after_reroll dt rnd e))
      as (Hc & Hk & Ha & Hg & Hp). cbv zeta in Hc, Hk, Ha, Hg, Hp.
    rewrite Fc in Hc. rewrite Fs in Ha, Hg, Hp. rewrite Fk in Hk.
    split.
    + intros Hshut.
      rewrite shooting_logic_closed.
      * repeat split; assumption.
      * apply not_true_is_false. intros Hopen. apply Hshut.
        apply gate_open_iff in Hopen. now rewrite Hc in Hopen.
    + intros Hnear Hcount.
      rewrite shooting_logic_open
        by (apply gate_open_iff; rewrite Hc; now split).
      simpl. split; [exact Hk|].
      eexists. split; [reflexivity|]. repeat split; assumption.
Qed.

(** C10: when a step returns with the target in range and the lowered
    shot counter at 0 or less, the counter is set to [shoot_cooldown]
    even if the inner [shoot()] is refused because the gun is still
    cooling down or the ammo is spent: no projectile is added, no ammo is
    used, and the counter is reset all the same. *)
Theorem counter_resets_when_shot_refused (dt : Q) (rnd : Random.draws)
  (e : BulletEnemy.t) (target : Ship.t) :
  BulletEnemy.target_ship e = Some target ->
  snd (BulletEnemy.step dt rnd e) = Returned tt ->
  Vec2.magnitude_squared
    (Vec2.sub (Ship.pos target) (Ship.pos (BulletEnemy.ship e)))
    < ENEMY_SHOOT_RANGE ^ 2 ->
  BulletEnemy.time_until_next_shot e - 1 <= 0 ->
  0 < py_max 0 (Ship.gun_cooldown (BulletEnemy.ship e) - dt) \/
  (Ship.ammo (BulletEnemy.ship e) <= 0)%Z ->
  let e' := fst (BulletEnemy.step dt rnd e) in
  BulletEnemy.time_until_next_shot e' = BulletEnemy.shoot_cooldown e /\
  Ship.projectiles (BulletEnemy.ship e') =
    map (fun p => bullet_step p dt) (Ship.projectiles (BulletEnemy.ship e)) /\
  Ship.ammo (BulletEnemy.ship e') = Ship.ammo (BulletEnemy.ship e) /\
  Ship.gun_cooldown (BulletEnemy.ship e') =
    py_max 0 (Ship.gun_cooldown (BulletEnemy.ship e) - dt).
Proof.
  intros Ht R Hnear Hcount Hrefuse. cbv zeta.
  destruct (after_reroll_frame dt rnd e) as (Fs & Fc & Fk & _).
  destruct (step_returned dt rnd e target Ht R) as [force ->].
  destruct (after_physics_fields dt force
              (BulletEnemy.after_reroll dt rnd e))
    as (Hc & Hk & Ha & Hg & Hp). cbv zeta in Hc, Hk, Ha, Hg, Hp.
  rewrite Fc in Hc. rewrite Fs in Ha, Hg, Hp. rewrite Fk in Hk.
  rewrite shooting_logic_open
    by (apply gate_open_iff; rewrite Hc; now split).
  unfold BulletEnemy.on_ship, BulletEnemy.set_time_until_next_shot,
    BulletEnemy.set_ship.
  cbn [BulletEnemy.ship BulletEnemy.time_until_next_shot].
  rewrite shoot_refused.
  - repeat split; assumption.
  - apply cannot_shoot_iff. rewrite Hg, Ha. exact Hrefuse.
Qed.

(** Dividing by the magnitude of a vector with zero coordinates
    raises. *)
Lemma div_by_zero_magnitude (Laws : VectorMathLaws VM) (fd : Vec2.t) (k : Q) :
  Vec2.eq fd Vec2.zero ->
  Vec2.div (Vec2.scale fd k) (magnitude fd) = Raised ZeroDivisionError.
Proof.
  intros [Hx Hy]. simpl in Hx, Hy. unfold Vec2.div.
  assert (Hm : magnitude fd == 0).
  { apply sqrtQ_zero. unfold Vec2.magnitude_squared. rewrite Hx, Hy. ring. }
  apply Qeq_eq_bool in Hm. now rewrite Hm.
Qed.

(** A step of an enemy keeps the invariants of its ship, whether it
    returns or raises. *)
Lemma enemy_step_invariant (dt : Q) (rnd : Random.draws)
  (e : BulletEnemy.t) :
  0 <= dt ->
  Ship.invariant (BulletEnemy.ship e) ->
  Ship.invariant (BulletEnemy.ship (fst (BulletEnemy.step dt rnd e))).
Proof.
  intros Hdt Hinv.
  destruct (after_reroll_frame dt rnd e) as (Fs & _).
  rewrite step_unfold. cbv zeta.
  destruct (BulletEnemy.target_ship e) as [target|];
    [|simpl; now rewrite Fs].
  match goal with
  | |- context [Vec2.div ?u ?k] => destruct (Vec2.div u k) as [force|x]
  end; [|simpl; now rewrite Fs].
  cbn [fst].
  assert (Hmid :
    Ship.invariant
      (BulletEnemy.ship
         (BulletEnemy.after_physics dt force
            (BulletEnemy.after_reroll dt rnd e)))).
  { destruct (after_physics_fields dt force
                (BulletEnemy.after_reroll dt rnd e))
      as (_ & _ & Ha & Hg & _). cbv zeta in Ha, Hg.
    rewrite Fs in Ha, Hg.
    destruct Hinv as (Hc & Ht & Hammo).
    unfold Ship.invariant. rewrite Ha, Hg.
    split; [apply py_max_lower|]. split; [|exact Hammo].
    rewrite after_physics_timer, Fs.
    split; [apply py_max_lower|].
    apply py_max_upper; unfold DAMAGE_INDICATOR_TIME in *; lra. }
  unfold BulletEnemy.shooting_logic.
  match goal with
  | |- context [if ?c then _ else _] => destruct c
  end; [|exact Hmid].
  unfold BulletEnemy.on_ship, BulletEnemy.set_time_until_next_shot,
    BulletEnemy.set_ship.
  cbn [BulletEnemy.ship].
  now apply shoot_invariant.
Qed.

(** C2 (defect of [BulletEnemy.step]): a direction vector with zero
    coordinates makes the normalisation raise [ZeroDivisionError], which
    the step propagates; in particular an enemy in the [decelerate]
    state with velocity (0,0) raises it instead of applying a zero
    force, and the step stops there: only the action timer has moved. *)
Theorem zero_direction_raises (dt : Q) (rnd : Random.draws)
  (e : BulletEnemy.t) (target : Ship.t) :
  VectorMathLaws VM ->
  BulletEnemy.target_ship e = Some target ->
  let e1 := BulletEnemy.after_reroll dt rnd e in
  let delta := Vec2.sub (Ship.pos target) (Ship.pos (BulletEnemy.ship e)) in
  (Vec2.eq (BulletEnemy.force_direction e1 delta rnd) Vec2.zero ->
     BulletEnemy.step dt rnd e = (e1, Raised ZeroDivisionError)) /\
  (0 < BulletEnemy.action_timer e - dt ->
   BulletEnemy.current_action e = BulletEnemy.decelerate ->
   Vec2.eq (Ship.vel (BulletEnemy.ship e)) Vec2.zero ->
     BulletEnemy.step dt rnd e =
       (BulletEnemy.set_action_timer e (BulletEnemy.action_timer e - dt),
        Raised ZeroDivisionError)).
Proof.
  intros Laws Ht. cbv zeta.
  assert (General :
    Vec2.eq
      (BulletEnemy.force_direction (BulletEnemy.after_reroll dt rnd e)
         (Vec2.sub (Ship.pos target) (Ship.pos (BulletEnemy.ship e))) rnd)
      Vec2.zero ->
    BulletEnemy.step dt rnd e =
      (BulletEnemy.after_reroll dt rnd e, Raised ZeroDivisionError)).
  { intros Hz. rewrite step_unfold, Ht. cbv zeta.
    now rewrite (div_by_zero_magnitude Laws _ _ Hz). }
  split; [exact General|].
  intros Htimer Hact [Hx Hy]. simpl in Hx, Hy.
  assert (E1 : BulletEnemy.after_reroll dt rnd e =
               BulletEnemy.set_action_timer e
                 (BulletEnemy.action_timer e - dt)).
  { unfold BulletEnemy.after_reroll. simpl.
    apply Qleb_gt in Htimer. now rewrite Htimer. }
  rewrite <- E1. apply General. rewrite E1.
  unfold BulletEnemy.force_direction. simpl. rewrite Hact.
  split; simpl; [rewrite Hx|rewrite Hy]; ring.
Qed.

(** C9 (as the code has it): an enemy whose target reference holds
    nothing applies no force in that step because the step raises
    [AttributeError] at its first read of the target: the action timer
    and, on expiry, the action have been updated, while the ship itself
    and the shot counter are as before.  A missing target is not
    tolerated. *)
Theorem missing_target_raises (dt : Q) (rnd : Random.draws)
  (e : BulletEnemy.t) :
  BulletEnemy.target_ship e = None ->
  let e1 := BulletEnemy.after_reroll dt rnd e in
  BulletEnemy.step dt rnd e = (e1, Raised AttributeError) /\
  BulletEnemy.ship e1 = BulletEnemy.ship e /\
  BulletEnemy.time_until_next_shot e1 = BulletEnemy.time_until_next_shot e.
Proof.
  intros Ht. cbv zeta.
  destruct (after_reroll_frame dt rnd e) as (Fs & Fc & _).
  rewrite step_unfold, Ht. repeat split; assumption.
Qed.

End EnemyFacts.

(** ** Using a ship: shots, ticks and damage in sequence *)

Lemma py_max_shrinks (c dt : Q) :
  0 <= dt -> 0 <= c -> py_max 0 (c - dt) <= c.
Proof.
  intros Hdt Hc. apply py_max_upper; lra.
Qed.

Lemma py_max_stays_zero (c dt : Q) :
  0 <= dt -> c == 0 -> py_max 0 (c - dt) == 0.
Proof.
  intros Hdt Hc. unfold py_max.
  destruct (Qltb 0 (c - dt)) eqn:E; [|reflexivity].
  apply Qltb_lt in E. lra.
Qed.

Section ShipUse.
Context {VM : VectorMath} {PH : Physics}.

Lemma shot_blocks_next (s : Ship.t) :
  Ship.can_shoot s = true -> Ship.can_shoot (Ship.shoot s) = false.
Proof.
  intros E. apply cannot_shoot_iff. left.
  rewrite (shoot_fired s E). simpl. lra.
Qed.

(** X1: calling [shoot()] twice in a row is calling it once: the shot
    that succeeds starts the cooldown that refuses the next. *)
Theorem shoot_twice_is_shoot_once (s : Ship.t) :
  Ship.shoot (Ship.shoot s) = Ship.shoot s.
Proof.
  destruct (Ship.can_shoot s) eqn:E.
  - apply shoot_refused. now apply shot_blocks_next.
  - now rewrite !(shoot_refused s E).
Qed.

(** X2: after a shot, one tick shorter than 0.5 leaves the gun refusing,
    and one tick of 0.5 or more makes it ready again exactly when a round
    is left. *)
Theorem gun_ready_after_half_second (dt : Q) (s : Ship.t) :
  Ship.can_shoot s = true ->
  (dt < 0.5 -> Ship.can_shoot (Ship.step dt (Ship.shoot s)) = false) /\
  (0.5 <= dt ->
     Ship.can_shoot (Ship.step dt (Ship.shoot s)) = (1 <? Ship.ammo s)%Z).
Proof.
  intros E.
  assert (Hg : Ship.gun_cooldown (Ship.step dt (Ship.shoot s)) =
               py_max 0 (0.5 - dt))
    by (rewrite step_gun_cooldown, (shoot_fired s E); reflexivity).
  assert (Ha : Ship.ammo (Ship.step dt (Ship.shoot s)) = (Ship.ammo s - 1)%Z)
    by (rewrite step_ammo, (shoot_fired s E); reflexivity).
  split; intros Hdt.
  - apply cannot_shoot_iff. left. rewrite Hg.
    unfold py_max. assert (H : Qltb 0 (0.5 - dt) = true)
      by (apply Qltb_lt; lra).
    rewrite H. lra.
  - unfold Ship.can_shoot. rewrite Hg, Ha.
    assert (H : Qltb 0 (0.5 - dt) = false) by (apply Qltb_ge; lra).
    unfold py_max. rewrite H.
    replace (0 <? Ship.ammo s - 1)%Z with (1 <? Ship.ammo s)%Z.
    + reflexivity.
    + destruct (1 <? Ship.ammo s)%Z eqn:A, (0 <? Ship.ammo s - 1)%Z eqn:B;
        try reflexivity;
        rewrite ?Z.ltb_lt, ?Z.ltb_ge in *; lia.
Qed.

(** X3: over any steps that do not run time backwards, the gun cooldown
    and the damage-indicator timer only run down: neither ever exceeds
    what it was before the steps, and one that is at 0 stays at 0. *)
Theorem timers_only_run_down (dts : list Q) (s : Ship.t) :
  Forall (fun dt => 0 <= dt) dts ->
  0 <= Ship.gun_cooldown s ->
  0 <= Ship.damage_indicator_timer s ->
  let s' := Calls.run (map Calls.step dts) s in
  (0 <= Ship.gun_cooldown s' /\ Ship.gun_cooldown s' <= Ship.gun_cooldown s) /\
  (0 <= Ship.damage_indicator_timer s' /\
   Ship.damage_indicator_timer s' <= Ship.damage_indicator_timer s) /\
  (Ship.gun_cooldown s == 0 -> Ship.gun_cooldown s' == 0) /\
  (Ship.damage_indicator_timer s == 0 ->
   Ship.damage_indicator_timer s' == 0).
Proof.
  cbv zeta. unfold Calls.run. intros Hdts. revert s.
  induction Hdts as [|dt dts Hdt Hdts IH]; intros s Hg Ht;
    cbn [map fold_left].
  - repeat split; try assumption; try apply Qle_refl; auto.
  - cbn [Calls.apply].
    pose proof (step_gun_cooldown dt s) as Eg.
    pose proof (step_damage_indicator_timer dt s) as Et.
    revert Eg Et. generalize (Ship.step dt s). intros s1 Eg Et.
    assert (Hg1 : 0 <= Ship.gun_cooldown s1)
      by (rewrite Eg; apply py_max_lower).
    assert (Ht1 : 0 <= Ship.damage_indicator_timer s1)
      by (rewrite Et; apply py_max_lower).
    assert (Hg2 : Ship.gun_cooldown s1 <= Ship.gun_cooldown s)
      by (rewrite Eg; now apply py_max_shrinks).
    assert (Ht2 : Ship.damage_indicator_timer s1 <=
                  Ship.damage_indicator_timer s)
      by (rewrite Et; now apply py_max_shrinks).
    destruct (IH s1 Hg1 Ht1) as ((I1 & I2) & (I3 & I4) & I5 & I6).
    split; [split; [exact I1|lra]|].
    split; [split; [exact I3|lra]|].
    split; intros Hz.
    + apply I5. rewrite Eg. now apply py_max_stays_zero.
    + apply I6. rewrite Et. now apply py_max_stays_zero.
Qed.

Lemma step_health (dt : Q) (s : Ship.t) :
  Ship.health (Ship.step dt s) = Ship.health s.
Proof.
  unfold Ship.step. rewrite (apply_movement_frame s). reflexivity.
Qed.

Lemma shoot_health (s : Ship.t) : Ship.health (Ship.shoot s) = Ship.health s.
Proof.
  destruct (Ship.can_shoot s) eqn:E.
  - now rewrite (shoot_fired s E).
  - now rewrite (shoot_refused s E).
Qed.

(** Rounds in the magazine plus projectiles owned. *)
Lemma shoot_rounds (s : Ship.t) :
  (Ship.ammo (Ship.shoot s) +
     Z.of_nat (length (Ship.projectiles (Ship.shoot s))) =
   Ship.ammo s + Z.of_nat (length (Ship.projectiles s)))%Z /\
  (length (Ship.projectiles s) <=
     length (Ship.projectiles (Ship.shoot s)))%nat.
Proof.
  destruct (Ship.can_shoot s) eqn:E.
  - rewrite (shoot_fired s E). simpl. rewrite length_app. simpl. lia.
  - rewrite (shoot_refused s E). lia.
Qed.

Lemma apply_rounds (c : Calls.call) (s : Ship.t) :
  (Ship.ammo (Calls.apply c s) +
     Z.of_nat (length (Ship.projectiles (Calls.apply c s))) =
   Ship.ammo s + Z.of_nat (length (Ship.projectiles s)))%Z /\
  (length (Ship.projectiles s) <=
     length (Ship.projectiles (Calls.apply c s)))%nat.
Proof.
  destruct c as [|damage|dt]; cbn [Calls.apply].
  - apply shoot_rounds.
  - unfold Ship.suffer_damage. destruct (Qltb 0 damage); simpl; lia.
  - rewrite step_ammo, step_projectiles, length_map. lia.
Qed.

Lemma run_rounds (cs : list Calls.call) (s : Ship.t) :
  (Ship.ammo (Calls.run cs s) +
     Z.of_nat (length (Ship.projectiles (Calls.run cs s))) =
   Ship.ammo s + Z.of_nat (length (Ship.projectiles s)))%Z.
Proof.
  unfold Calls.run. revert s.
  induction cs as [|c cs IH]; intros s; cbn [fold_left]; [reflexivity|].
  rewrite IH. apply apply_rounds.
Qed.

(** X4: whatever calls are made on a ship, the rounds left plus the
    projectiles owned stay the same number: every projectile was paid for
    with one round, none is ever dropped from the list, and ammo never
    grows. *)
Theorem calls_conserve_rounds (cs : list Calls.call) (s : Ship.t) :
  let s' := Calls.run cs s in
  (Ship.ammo s' + Z.of_nat (length (Ship.projectiles s')) =
   Ship.ammo s + Z.of_nat (length (Ship.projectiles s)))%Z /\
  (length (Ship.projectiles s) <= length (Ship.projectiles s'))%nat /\
  (Ship.ammo s' <= Ship.ammo s)%Z.
Proof.
  cbv zeta. pose proof (run_rounds cs s) as Hsum.
  assert (Hgrow : (length (Ship.projectiles s) <=
                   length (Ship.projectiles (Calls.run cs s)))%nat).
  { unfold Calls.run. revert s Hsum.
    induction cs as [|c cs IH]; intros s _; cbn [fold_left]; [lia|].
    pose proof (IH (Calls.apply c s) (run_rounds cs _)) as I.
    destruct (apply_rounds c s) as (_ & A). lia. }
  split; [exact Hsum|]. split; [exact Hgrow|]. lia.
Qed.


Lemma apply_health (c : Calls.call) (s : Ship.t) :
  Ship.health (Calls.apply c s) <= Ship.health s /\
  (match c with Calls.suffer_damage damage => damage <= 0 | _ => True end ->
   Ship.health (Calls.apply c s) = Ship.health s).
Proof.
  destruct c as [|damage|dt]; cbn [Calls.apply].
  - rewrite shoot_health. split; [apply Qle_refl|reflexivity].
  - unfold Ship.suffer_damage. destruct (Qltb 0 damage) eqn:E.
    + apply Qltb_lt in E. simpl. split; [lra|]. intros H. lra.
    + split; [apply Qle_refl|reflexivity].
  - rewrite step_health. split; [apply Qle_refl|reflexivity].
Qed.

(** X5: whatever calls are made on a ship, its health never ends above
    what it was; calls among which no [suffer_damage] has a positive
    amount leave it exactly as it was, shots and steps never touching
    it; and there is no floor: for every bound some damage takes health
    below it. *)
Theorem health_only_goes_down (cs : list Calls.call) (s : Ship.t)
  (bound : Q) :
  Ship.health (Calls.run cs s) <= Ship.health s /\
  (Forall (fun c => match c with
                    | Calls.suffer_damage damage => damage <= 0
                    | _ => True
                    end) cs ->
   Ship.health (Calls.run cs s) = Ship.health s) /\
  (exists damage, Ship.health (Ship.suffer_damage damage s) < bound).
Proof.
  split; [|split].
  - unfold Calls.run. revert s.
    induction cs as [|c cs IH]; intros s; cbn [fold_left];
      [apply Qle_refl|].
    pose proof (IH (Calls.apply c s)) as I.
    destruct (apply_health c s) as (A & _). lra.
  - unfold Calls.run. intros Hcs. revert s.
    induction Hcs as [|c cs Hc Hcs IH]; intros s; cbn [fold_left];
      [reflexivity|].
    rewrite IH. now apply apply_health.
  - destruct (Qlt_le_dec (Ship.health s) bound) as [Hlt|Hge].
    + exists 1. unfold Ship.suffer_damage.
      assert (E : Qltb 0 1 = true) by reflexivity.
      rewrite E. simpl. lra.
    + exists (Ship.health s - bound + 1). unfold Ship.suffer_damage.
      assert (E : Qltb 0 (Ship.health s - bound + 1) = true)
        by (apply Qltb_lt; lra).
      rewrite E. simpl. lra.
Qed.

Lemma apply_invariant (c : Calls.call) (s : Ship.t) :
  match c with Calls.step dt => 0 <= dt | _ => True end ->
  Ship.invariant s -> Ship.invariant (Calls.apply c s).
Proof.
  destruct c as [|damage|dt]; cbn [Calls.apply]; intros Hc Hs.
  - now apply shoot_invariant.
  - now apply suffer_damage_invariant.
  - now apply step_invariant.
Qed.

Lemma run_invariant (cs : list Calls.call) (s : Ship.t) :
  Calls.forward_in_time cs ->
  Ship.invariant s -> Ship.invariant (Calls.run cs s).
Proof.
  unfold Calls.run. intros Hcs. revert s.
  induction Hcs as [|c cs Hc Hcs IH]; intros s Hs; cbn [fold_left];
    [exact Hs|].
  apply IH. now apply apply_invariant.
Qed.

(** X6: a ship as [Ship.__init__] makes it, after any calls whose steps do
    not run time backwards, still has its gun cooldown at or above 0, its
    damage-indicator timer within [0, 0.75] and ammo at or above 0, and
    its rounds and projectiles add up to the 1000 it started with, so it
    never owns more than 1000 projectiles. *)
Theorem new_ship_stays_within_bounds (pos vel : Vec2.t) (density size : Q)
  (color : Color.t) (cs : list Calls.call) :
  Calls.forward_in_time cs ->
  let s' := Calls.run cs (Ship.init pos vel density size color) in
  Ship.invariant s' /\
  (Ship.ammo s' + Z.of_nat (length (Ship.projectiles s')) = 1000)%Z /\
  (length (Ship.projectiles s') <= 1000)%nat.
Proof.
  intros Hcs. cbv zeta.
  set (s0 := Ship.init pos vel density size color).
  assert (H0 : Ship.invariant s0).
  { unfold Ship.invariant, DAMAGE_INDICATOR_TIME. simpl.
    repeat split; try lra; lia. }
  pose proof (run_invariant cs s0 Hcs H0) as Hinv.
  pose proof (run_rounds cs s0) as Hsum. simpl in Hsum.
  split; [exact Hinv|]. split; [exact Hsum|].
  destruct Hinv as (_ & _ & Hammo). lia.
Qed.

End ShipUse.

(** ** A player's ship *)

Section PlayerFacts.
Context {VM : VectorMath} {PH : Physics}.

Lemma shoot_with_flags (s : Ship.t) (r l u d : bool) :
  Ship.shoot (PlayerShip.with_flags s r l u d) =
  PlayerShip.with_flags (Ship.shoot s) r l u d.
Proof.
  unfold Ship.shoot.
  change (Ship.can_shoot (PlayerShip.with_flags s r l u d))
    with (Ship.can_shoot s).
  destruct (Ship.can_shoot s); reflexivity.
Qed.

Lemma handle_input_ship (keys : Z -> bool) (p : PlayerShip.t) :
  let i := PlayerShip.spaceship_input p in
  PlayerShip.handle_input keys p =
  PlayerShip.set_ship p
    (PlayerShip.with_flags
       (if keys (ShipInput.shoot i) then Ship.shoot (PlayerShip.ship p)
        else PlayerShip.ship p)
       (keys (ShipInput.move_right i)) (keys (ShipInput.move_left i))
       (keys (ShipInput.move_up i)) (keys (ShipInput.move_down i))).
Proof.
  cbv zeta. unfold PlayerShip.handle_input.
  destruct (keys (ShipInput.shoot (PlayerShip.spaceship_input p))).
  - fold (PlayerShip.with_flags (PlayerShip.ship p)
            (keys (ShipInput.move_right (PlayerShip.spaceship_input p)))
            (keys (ShipInput.move_left (PlayerShip.spaceship_input p)))
            (keys (ShipInput.move_up (PlayerShip.spaceship_input p)))
            (keys (ShipInput.move_down (PlayerShip.spaceship_input p)))).
    now rewrite shoot_with_flags.
  - reflexivity.
Qed.

(** X7: [handle_input] makes the four movement flags equal to the state
    of their keys, whatever the flags were before, keeps the key
    bindings, and leaves the rest of the ship as [shoot()] leaves it when
    the fire key is down and untouched when it is up. *)
Theorem handle_input_mirrors_keys (keys : Z -> bool) (p : PlayerShip.t) :
  let i := PlayerShip.spaceship_input p in
  let p' := PlayerShip.handle_input keys p in
  let s' := PlayerShip.ship p' in
  let shot := if keys (ShipInput.shoot i) then Ship.shoot (PlayerShip.ship p)
              else PlayerShip.ship p in
  PlayerShip.spaceship_input p' = i /\
  (Ship.move_right s' = keys (ShipInput.move_right i) /\
   Ship.move_left s' = keys (ShipInput.move_left i) /\
   Ship.move_up s' = keys (ShipInput.move_up i) /\
   Ship.move_down s' = keys (ShipInput.move_down i)) /\
  (Ship.projectiles s' = Ship.projectiles shot /\
   Ship.ammo s' = Ship.ammo shot /\
   Ship.gun_cooldown s' = Ship.gun_cooldown shot) /\
  (Ship.disk s' = Ship.disk (PlayerShip.ship p) /\
   Ship.health s' = Ship.health (PlayerShip.ship p) /\
   Ship.angle s' = Ship.angle (PlayerShip.ship p) /\
   Ship.damage_indicator_timer s' =
     Ship.damage_indicator_timer (PlayerShip.ship p)).
Proof.
  cbv zeta. rewrite handle_input_ship. cbv zeta.
  cbn [PlayerShip.ship PlayerShip.set_ship PlayerShip.spaceship_input].
  split; [reflexivity|]. split; [repeat split|].
  split; [repeat split|].
  destruct (keys (ShipInput.shoot (PlayerShip.spaceship_input p)));
    [|repeat split].
  destruct (Ship.can_shoot (PlayerShip.ship p)) eqn:E.
  - rewrite (shoot_fired _ E). repeat split.
  - rewrite (shoot_refused _ E). repeat split.
Qed.

(** X8: reading the same keys twice without a tick in between is reading
    them once: a fire key held down fires one shot, not two. *)
Theorem handle_input_twice_is_once (keys : Z -> bool) (p : PlayerShip.t) :
  PlayerShip.handle_input keys (PlayerShip.handle_input keys p) =
  PlayerShip.handle_input keys p.
Proof.
  rewrite (handle_input_ship keys (PlayerShip.handle_input keys p)).
  cbv zeta. rewrite (handle_input_ship keys p). cbv zeta.
  cbn [PlayerShip.ship PlayerShip.set_ship PlayerShip.spaceship_input].
  unfold PlayerShip.set_ship. f_equal.
  destruct (keys (ShipInput.shoot (PlayerShip.spaceship_input p)));
    [|reflexivity].
  rewrite shoot_with_flags.
  destruct (Ship.can_shoot (PlayerShip.ship p)) eqn:E.
  - rewrite (shoot_refused (Ship.shoot (PlayerShip.ship p)))
      by (now apply shot_blocks_next).
    reflexivity.
  - rewrite !(shoot_refused (PlayerShip.ship p) E). reflexivity.
Qed.

End PlayerFacts.

(** ** An enemy: outcomes, the countdown and the heading *)

Section EnemyUse.
Context {VM : VectorMath} {PH : Physics}.

Lemma div_outcome (u : Vec2.t) (k : Q) :
  (Vec2.div u k = Raised ZeroDivisionError <-> k == 0) /\
  (k == 0 \/ exists v, Vec2.div u k = Returned v).
Proof.
  unfold Vec2.div. destruct (Qeq_bool k 0) eqn:E.
  - apply Qeq_bool_iff in E. split; [tauto|now left].
  - split.
    + split; [discriminate|]. intros H. apply Qeq_bool_iff in H. congruence.
    + right. eauto.
Qed.

(** X9: a step of an enemy raises [AttributeError] exactly when the
    target reference holds nothing, raises [ZeroDivisionError] exactly
    when there is a target and the direction of the force has magnitude
    zero, and returns in every other case; a step that does not return
    has changed neither the ship nor the shot counter. *)
Theorem step_outcome_by_cases (dt : Q) (rnd : Random.draws)
  (e : BulletEnemy.t) :
  let e1 := BulletEnemy.after_reroll dt rnd e in
  let out := snd (BulletEnemy.step dt rnd e) in
  let e' := fst (BulletEnemy.step dt rnd e) in
  let stalls target :=
    magnitude
      (BulletEnemy.force_direction e1
         (Vec2.sub (Ship.pos target) (Ship.pos (BulletEnemy.ship e))) rnd)
    == 0 in
  (out = Raised AttributeError <-> BulletEnemy.target_ship e = None) /\
  (out = Raised ZeroDivisionError <->
     exists target,
       BulletEnemy.target_ship e = Some target /\ stalls target) /\
  (out = Returned tt <->
     exists target,
       BulletEnemy.target_ship e = Some target /\ ~ stalls target) /\
  (out <> Returned tt ->
     BulletEnemy.ship e' = BulletEnemy.ship e /\
     BulletEnemy.time_until_next_shot e' =
       BulletEnemy.time_until_next_shot e).
Proof.
  cbv zeta.
  destruct (after_reroll_frame dt rnd e) as (Fs & Fc & _).
  rewrite step_unfold. cbv zeta.
  destruct (BulletEnemy.target_ship e) as [target|]; cbn [fst snd].
  - match goal with
    | |- context [Vec2.div ?u ?k] =>
        destruct (div_outcome u k) as [Hz Hr];
        destruct (Vec2.div u k) as [force|x] eqn:D
    end; cbn [fst snd].
    + assert (Hnz : ~ magnitude
                (BulletEnemy.force_direction
                   (BulletEnemy.after_reroll dt rnd e)
                   (Vec2.sub (Ship.pos target)
                      (Ship.pos (BulletEnemy.ship e))) rnd) == 0).
      { intros H. apply Hz in H. discriminate. }
      repeat split; try discriminate; try congruence.
      * intros (t & Ht & Hs). inversion Ht; subst t. contradiction.
      * intros _. exists target. now split.
    + assert (Hzero : magnitude
                (BulletEnemy.force_direction
                   (BulletEnemy.after_reroll dt rnd e)
                   (Vec2.sub (Ship.pos target)
                      (Ship.pos (BulletEnemy.ship e))) rnd) == 0).
      { destruct Hr as [H|[v H]]; [exact H|discriminate]. }
      assert (x = ZeroDivisionError) by (apply Hz in Hzero; congruence).
      subst x.
      repeat split; try discriminate; try assumption.
      * intros _. exists target. now split.
      * intros (t & Ht & Hs). inversion Ht; subst t. contradiction.
  - repeat split; try discriminate; try assumption.
    + intros (t & Ht & _). discriminate.
    + intros (t & Ht & _). discriminate.
Qed.

(** X10: with a target present, a step divides by zero and raises
    [ZeroDivisionError] whenever the direction of the force comes out as
    the zero vector: while seeking, when the enemy sits on its target;
    while drifting, when both draws are 1/2, which makes both random
    coordinates 0; while braking, when the enemy is at rest. *)
Theorem zero_division_when_direction_vanishes (dt : Q)
  (rnd : Random.draws) (e : BulletEnemy.t) (target : Ship.t) :
  VectorMathLaws VM ->
  BulletEnemy.target_ship e = Some target ->
  let e1 := BulletEnemy.after_reroll dt rnd e in
  let fails := snd (BulletEnemy.step dt rnd e) = Raised ZeroDivisionError in
  (BulletEnemy.current_action e1 = BulletEnemy.accelerate_to_player ->
   Vec2.eq (Ship.pos target) (Ship.pos (BulletEnemy.ship e)) -> fails) /\
  (BulletEnemy.current_action e1 = BulletEnemy.accelerate_randomly ->
   Random.for_uniform_x rnd == 1 # 2 ->
   Random.for_uniform_y rnd == 1 # 2 -> fails) /\
  (BulletEnemy.current_action e1 = BulletEnemy.decelerate ->
   Vec2.eq (Ship.vel (BulletEnemy.ship e)) Vec2.zero -> fails).
Proof.
  intros Laws Ht. cbv zeta.
  destruct (after_reroll_frame dt rnd e) as (Fs & _).
  assert (General :
    Vec2.eq
      (BulletEnemy.force_direction (BulletEnemy.after_reroll dt rnd e)
         (Vec2.sub (Ship.pos target) (Ship.pos (BulletEnemy.ship e))) rnd)
      Vec2.zero ->
    snd (BulletEnemy.step dt rnd e) = Raised ZeroDivisionError).
  { intros Hz. rewrite step_unfold, Ht. cbv zeta.
    now rewrite (div_by_zero_magnitude Laws _ _ Hz). }
  unfold BulletEnemy.force_direction in General.
  split; [|split]; intros Ha; rewrite Ha in General.
  - intros [Hx Hy]. apply General. split; simpl; lra.
  - intros Hx Hy. apply General. unfold Random.uniform.
    split; simpl; lra.
  - intros [Hx Hy]. apply General. rewrite Fs.
    simpl in Hx, Hy. split; simpl; lra.
Qed.

(** *** The countdown to the first shot *)

Lemma step_returned_target (dt : Q) (rnd : Random.draws)
  (e : BulletEnemy.t) :
  snd (BulletEnemy.step dt rnd e) = Returned tt ->
  exists target force,
    BulletEnemy.target_ship e = Some target /\
    fst (BulletEnemy.step dt rnd e) =
    BulletEnemy.shooting_logic
      (Vec2.sub (Ship.pos target) (Ship.pos (BulletEnemy.ship e)))
      (BulletEnemy.after_physics dt force
         (BulletEnemy.after_reroll dt rnd e)).
Proof.
  intros R. destruct (BulletEnemy.target_ship e) as [target|] eqn:Ht.
  - destruct (step_returned dt rnd e target Ht R) as [force H].
    now exists target, force.
  - rewrite step_unfold, Ht in R. discriminate.
Qed.

(** What a step does to the counter and to the rounds, whatever comes
    out of it. *)
Lemma step_counter_and_rounds (dt : Q) (rnd : Random.draws)
  (e : BulletEnemy.t) :
  let e' := fst (BulletEnemy.step dt rnd e) in
  let s := BulletEnemy.ship e in
  let s' := BulletEnemy.ship e' in
  BulletEnemy.shoot_cooldown e' = BulletEnemy.shoot_cooldown e /\
  (Ship.ammo s' + Z.of_nat (length (Ship.projectiles s')) =
   Ship.ammo s + Z.of_nat (length (Ship.projectiles s)))%Z /\
  (length (Ship.projectiles s) <= length (Ship.projectiles s'))%nat /\
  (BulletEnemy.time_until_next_shot e' = BulletEnemy.time_until_next_shot e \/
   BulletEnemy.time_until_next_shot e' =
     BulletEnemy.time_until_next_shot e - 1 \/
   BulletEnemy.time_until_next_shot e' = BulletEnemy.shoot_cooldown e) /\
  (snd (BulletEnemy.step dt rnd e) = Returned tt ->
   0 < BulletEnemy.time_until_next_shot e - 1 ->
     BulletEnemy.time_until_next_shot e' =
       BulletEnemy.time_until_next_shot e - 1 /\
     Ship.ammo s' = Ship.ammo s /\
     length (Ship.projectiles s') = length (Ship.projectiles s)).
Proof.
  cbv zeta.
  destruct (after_reroll_frame dt rnd e) as (Fs & Fc & Fk & _).
  destruct (step_outcome dt rnd e) as [R|[x R]].
  - destruct (step_returned_target dt rnd e R) as (target & force & Ht & ->).
    destruct (after_physics_fields dt force
                (BulletEnemy.after_reroll dt rnd e))
      as (Hc & Hk & Ha & Hg & Hp). cbv zeta in Hc, Hk, Ha, Hg, Hp.
    rewrite Fc in Hc. rewrite Fs in Ha, Hg, Hp. rewrite Fk in Hk.
    revert Hc Hk Ha Hg Hp.
    generalize (BulletEnemy.after_physics dt force
                  (BulletEnemy.after_reroll dt rnd e)).
    intros e2 Hc Hk Ha Hg Hp.
    unfold BulletEnemy.shooting_logic.
    match goal with
    | |- context [if ?c then _ else _] => destruct c eqn:G
    end.
    + unfold BulletEnemy.on_ship, BulletEnemy.set_time_until_next_shot,
        BulletEnemy.set_ship.
      cbn [BulletEnemy.ship BulletEnemy.time_until_next_shot
           BulletEnemy.shoot_cooldown].
      destruct (shoot_rounds (BulletEnemy.ship e2)) as (S1 & S2).
      rewrite Ha, Hp, length_map in S1. rewrite Hp, length_map in S2.
      split; [exact Hk|]. split; [exact S1|]. split; [exact S2|].
      split; [right; right; exact Hk|].
      intros _ Hpos. apply gate_open_iff in G. rewrite Hc in G.
      destruct G as [_ G]. lra.
    + rewrite Ha, Hp, Hc, Hk, length_map.
      repeat split; try reflexivity; try lia.
      right. left. reflexivity.
  - rewrite (step_raised dt rnd e x R), Fs, Fc, Fk.
    split; [reflexivity|]. split; [reflexivity|]. split; [lia|].
    split; [left; reflexivity|].
    intros R'. rewrite R in R'. discriminate.
Qed.

Lemma run_cons (f : Hunt.frame) (fs : list Hunt.frame) (e : BulletEnemy.t) :
  Hunt.run (f :: fs) e =
  let r := BulletEnemy.step (Hunt.dt f) (Hunt.rnd f)
             (Hunt.set_target_ship e (Hunt.target f)) in
  match snd r with
  | Returned _ => Hunt.run fs (fst r)
  | Raised x => (fst r, Raised x)
  end.
Proof.
  cbn [Hunt.run]. unfold bind, modify. cbv zeta.
  destruct (BulletEnemy.step (Hunt.dt f) (Hunt.rnd f)
              (Hunt.set_target_ship e (Hunt.target f))) as [e1 [u|x]];
    reflexivity.
Qed.

Lemma set_target_ship_ship (e : BulletEnemy.t) (o : option Ship.t) :
  BulletEnemy.ship (Hunt.set_target_ship e o) = BulletEnemy.ship e.
Proof. reflexivity. Qed.

Lemma set_target_counter (e : BulletEnemy.t) (o : option Ship.t) :
  BulletEnemy.time_until_next_shot (Hunt.set_target_ship e o) =
  BulletEnemy.time_until_next_shot e.
Proof. reflexivity. Qed.

Lemma set_target_cooldown (e : BulletEnemy.t) (o : option Ship.t) :
  BulletEnemy.shoot_cooldown (Hunt.set_target_ship e o) =
  BulletEnemy.shoot_cooldown e.
Proof. reflexivity. Qed.

Lemma inject_succ (n : nat) :
  inject_Z (Z.of_nat (S n)) == inject_Z (Z.of_nat n) + 1.
Proof. rewrite Nat2Z.inj_succ, <- Z.add_1_r, inject_Z_plus. reflexivity. Qed.

(** X11: over a run of frames that all return, an enemy whose shot
    counter is above the number of frames fires nothing, whatever the
    distance to its target: ammo and projectiles are as before and the
    counter has gone down by one per frame, whatever the [dt]s were. *)
Theorem no_shot_during_countdown (fs : list Hunt.frame)
  (e e' : BulletEnemy.t) :
  Hunt.run fs e = (e', Returned tt) ->
  inject_Z (Z.of_nat (length fs)) < BulletEnemy.time_until_next_shot e ->
  Ship.ammo (BulletEnemy.ship e') = Ship.ammo (BulletEnemy.ship e) /\
  length (Ship.projectiles (BulletEnemy.ship e')) =
    length (Ship.projectiles (BulletEnemy.ship e)) /\
  BulletEnemy.time_until_next_shot e' ==
    BulletEnemy.time_until_next_shot e - inject_Z (Z.of_nat (length fs)).
Proof.
  revert e. induction fs as [|f fs IH]; intros e Hrun Hlen.
  - cbn in Hrun. inversion Hrun; subst e'. simpl.
    repeat split; try reflexivity. unfold inject_Z. ring.
  - rewrite run_cons in Hrun. cbv zeta in Hrun.
    cbn [length] in Hlen |- *. rewrite inject_succ in Hlen |- *.
    assert (Hn : 0 <= inject_Z (Z.of_nat (length fs))).
    { unfold Qle, inject_Z. simpl. lia. }
    destruct (step_counter_and_rounds (Hunt.dt f) (Hunt.rnd f)
                (Hunt.set_target_ship e (Hunt.target f)))
      as (_ & _ & _ & _ & Hstep). cbv zeta in Hstep.
    rewrite set_target_counter, set_target_ship_ship in Hstep.
    revert Hrun Hstep.
    destruct (snd (BulletEnemy.step (Hunt.dt f) (Hunt.rnd f)
                     (Hunt.set_target_ship e (Hunt.target f))))
      as [[]|x]; [|discriminate].
    generalize (fst (BulletEnemy.step (Hunt.dt f) (Hunt.rnd f)
                       (Hunt.set_target_ship e (Hunt.target f)))).
    intros e1 Hrun Hstep.
    destruct (Hstep eq_refl) as (Hc & Ha & Hp); [lra|].
    destruct (IH e1 Hrun) as (I1 & I2 & I3); [rewrite Hc; lra|].
    rewrite I1, I2, I3, Ha, Hp, Hc. repeat split; try reflexivity. ring.
Qed.

(** X12: when [shoot_cooldown] is at most 1, as the default 0.0125 is, a
    shot counter that has come down to 1 or less stays there over any
    frames, however the run ends: from then on the counter lets every
    step shoot, and only the range and the gun cooldown hold fire. *)
Theorem counter_stops_gating (fs : list Hunt.frame) (e : BulletEnemy.t) :
  BulletEnemy.shoot_cooldown e <= 1 ->
  BulletEnemy.time_until_next_shot e <= 1 ->
  let e' := fst (Hunt.run fs e) in
  BulletEnemy.shoot_cooldown e' = BulletEnemy.shoot_cooldown e /\
  BulletEnemy.time_until_next_shot e' - 1 <= 0.
Proof.
  cbv zeta. revert e. induction fs as [|f fs IH]; intros e Hk Hc.
  - simpl. split; [reflexivity|lra].
  - rewrite run_cons. cbv zeta.
    destruct (step_counter_and_rounds (Hunt.dt f) (Hunt.rnd f)
                (Hunt.set_target_ship e (Hunt.target f)))
      as (Sk & _ & _ & Sc & _). cbv zeta in Sk, Sc.
    rewrite set_target_cooldown in Sk, Sc.
    rewrite set_target_counter in Sc.
    revert Sk Sc.
    generalize (fst (BulletEnemy.step (Hunt.dt f) (Hunt.rnd f)
                       (Hunt.set_target_ship e (Hunt.target f)))).
    intros e1 Sk Sc.
    assert (Hc1 : BulletEnemy.time_until_next_shot e1 <= 1)
      by (destruct Sc as [->|[->| ->]]; lra).
    destruct (snd (BulletEnemy.step (Hunt.dt f) (Hunt.rnd f)
                     (Hunt.set_target_ship e (Hunt.target f))))
      as [[]|x].
    + destruct (IH e1) as (I1 & I2); [rewrite Sk; exact Hk|exact Hc1|].
      rewrite I1, Sk. split; [reflexivity|exact I2].
    + cbn [fst]. rewrite Sk. split; [reflexivity|lra].
Qed.

Lemma run_keeps_ship (fs : list Hunt.frame) (e : BulletEnemy.t) :
  Forall (fun f => 0 <= Hunt.dt f) fs ->
  Ship.invariant (BulletEnemy.ship e) ->
  let s := BulletEnemy.ship e in
  let s' := BulletEnemy.ship (fst (Hunt.run fs e)) in
  Ship.invariant s' /\
  (Ship.ammo s' + Z.of_nat (length (Ship.projectiles s')) =
   Ship.ammo s + Z.of_nat (length (Ship.projectiles s)))%Z.
Proof.
  cbv zeta. intros Hfs. revert e.
  induction Hfs as [|f fs Hf Hfs IH]; intros e Hinv.
  - simpl. split; [exact Hinv|reflexivity].
  - rewrite run_cons. cbv zeta.
    assert (H0 : Ship.invariant
                   (BulletEnemy.ship
                      (Hunt.set_target_ship e (Hunt.target f))))
      by (rewrite set_target_ship_ship; exact Hinv).
    pose proof (enemy_step_invariant (Hunt.dt f) (Hunt.rnd f) _ Hf H0)
      as H1.
    destruct (step_counter_and_rounds (Hunt.dt f) (Hunt.rnd f)
                (Hunt.set_target_ship e (Hunt.target f)))
      as (_ & Sr & _). cbv zeta in Sr.
    rewrite set_target_ship_ship in Sr.
    revert H1 Sr.
    generalize (fst (BulletEnemy.step (Hunt.dt f) (Hunt.rnd f)
                       (Hunt.set_target_ship e (Hunt.target f)))).
    intros e1 H1 Sr.
    destruct (snd (BulletEnemy.step (Hunt.dt f) (Hunt.rnd f)
                     (Hunt.set_target_ship e (Hunt.target f))))
      as [[]|x].
    + destruct (IH e1 H1) as (I1 & I2). split; [exact I1|]. lia.
    + cbn [fst]. split; [exact H1|exact Sr].
Qed.

(** X13: over any frames whose [dt]s are not negative, and however the
    run ends, the ship of an enemy keeps its invariants and its rounds
    plus projectiles stay the same number; an enemy as
    [BulletEnemy.__init__] makes it therefore never owns more than 1000
    projectiles. *)
Theorem enemy_run_keeps_ship_sound (fs : list Hunt.frame)
  (pos vel : Vec2.t) (target : option Ship.t) (shoot_cooldown : Q)
  (color : Color.t) (e : BulletEnemy.t) :
  Forall (fun f => 0 <= Hunt.dt f) fs ->
  (Ship.invariant (BulletEnemy.ship e) ->
   let s := BulletEnemy.ship e in
   let s' := BulletEnemy.ship (fst (Hunt.run fs e)) in
   Ship.invariant s' /\
   (Ship.ammo s' + Z.of_nat (length (Ship.projectiles s')) =
    Ship.ammo s + Z.of_nat (length (Ship.projectiles s)))%Z) /\
  (let s' :=
     BulletEnemy.ship
       (fst (Hunt.run fs
               (BulletEnemy.init pos vel target shoot_cooldown color))) in
   Ship.invariant s' /\
   (length (Ship.projectiles s') <= 1000)%nat).
Proof.
  intros Hfs. split; [now apply run_keeps_ship|]. cbv zeta.
  set (e0 := BulletEnemy.init pos vel target shoot_cooldown color).
  assert (H0 : Ship.invariant (BulletEnemy.ship e0)).
  { unfold Ship.invariant, DAMAGE_INDICATOR_TIME. simpl.
    repeat split; try lra; lia. }
  destruct (run_keeps_ship fs e0 Hfs H0) as (Hinv & Hsum).
  cbv zeta in Hsum. simpl in Hsum.
  split; [exact Hinv|]. destruct Hinv as (_ & _ & Hammo). lia.
Qed.

Lemma set_angle_angle (s : Ship.t) (a : Q) :
  Ship.angle (Ship.set_angle s a) = a.
Proof. reflexivity. Qed.

Lemma set_angle_vel (s : Ship.t) (a : Q) :
  Ship.vel (Ship.set_angle s a) = Ship.vel s.
Proof. reflexivity. Qed.

Lemma after_physics_heading (dt : Q) (force : Vec2.t) (e : BulletEnemy.t) :
  let s := BulletEnemy.ship (BulletEnemy.after_physics dt force e) in
  Ship.angle s = atan2_degrees (Vec2.y (Ship.vel s)) (Vec2.x (Ship.vel s)).
Proof.
  cbv zeta. rewrite after_physics_ship. cbv zeta.
  rewrite set_angle_angle, set_angle_vel. reflexivity.
Qed.

(** X14: after a step that returns, the enemy faces the way it moves:
    its angle is the direction, in degrees, of the velocity the physics
    step left it with, and a projectile fired in that step leaves along
    that heading. *)
Theorem enemy_faces_its_velocity (dt : Q) (rnd : Random.draws)
  (e : BulletEnemy.t) :
  snd (BulletEnemy.step dt rnd e) = Returned tt ->
  let s' := BulletEnemy.ship (fst (BulletEnemy.step dt rnd e)) in
  Ship.angle s' =
    atan2_degrees (Vec2.y (Ship.vel s')) (Vec2.x (Ship.vel s')) /\
  forall b,
    length (Ship.projectiles s') =
      S (length (Ship.projectiles (BulletEnemy.ship e))) ->
    last (Ship.projectiles s') b =
      Bullet.init
        (Vec2.add (Ship.pos s')
           (Vec2.scale
              (Vec2.scale (from_polar 1 (Ship.angle s')) (Ship.radius s'))
              HEAD_LENGTH))
        (Vec2.add (Ship.vel s')
           (Vec2.scale (from_polar 1 (Ship.angle s')) BULLET_SPEED))
        (Ship.color s').
Proof.
  intros R. cbv zeta.
  destruct (after_reroll_frame dt rnd e) as (Fs & _).
  destruct (step_returned_target dt rnd e R) as (target & force & Ht & ->).
  destruct (after_physics_fields dt force
              (BulletEnemy.after_reroll dt rnd e))
    as (_ & _ & _ & _ & Hp). cbv zeta in Hp. rewrite Fs in Hp.
  pose proof (after_physics_heading dt force
                (BulletEnemy.after_reroll dt rnd e)) as Hangle.
  cbv zeta in Hangle.
  revert Hp Hangle.
  generalize (BulletEnemy.after_physics dt force
                (BulletEnemy.after_reroll dt rnd e)).
  intros e2 Hp Hangle.
  unfold BulletEnemy.shooting_logic.
  match goal with
  | |- context [if ?c then _ else _] => destruct c
  end.
  - unfold BulletEnemy.on_ship, BulletEnemy.set_time_until_next_shot,
      BulletEnemy.set_ship.
    cbn [BulletEnemy.ship].
    destruct (Ship.can_shoot (BulletEnemy.ship e2)) eqn:E.
    + rewrite (shoot_fired _ E).
      cbn [Ship.angle Ship.set_ammo Ship.set_gun_cooldown
           Ship.set_projectiles Ship.vel Ship.pos Ship.radius Ship.color
           Ship.disk Ship.projectiles].
      split; [exact Hangle|]. intros b _.
      rewrite last_last. reflexivity.
    + rewrite (shoot_refused _ E). split; [exact Hangle|].
      intros b Hlen. rewrite Hp, length_map in Hlen. lia.
  - split; [exact Hangle|].
    intros b Hlen. rewrite Hp, length_map in Hlen. lia.
Qed.

End EnemyUse.

(** ** Drawing a ship *)

Lemma set_color_back (s : Ship.t) (c : Color.t) :
  Draw.set_color (Draw.set_color s c) (Ship.color s) = s.
Proof.
  destruct s as [[p v m r c0] sz an he pr gc tr am th rt mr ml md mu f1 f2 dm].
  reflexivity.
Qed.

Section DrawFacts.
Context {VM : VectorMath} {RD : Rendering}.

(** What [Ship.draw] gives when both blends go through: the ship as it
    was, and the hull, the body and the projectiles in this order. *)
Lemma draw_returned (s s' : Ship.t) (cmds : list Camera.command) :
  Draw.ship s = Some (s', cmds) ->
  s' = s /\
  exists base hull,
    lerp (Ship.color s) Camera.red (Ship.damage_indicator_timer s) =
      Some base /\
    cmds = hull ++ disk_draw (Ship.disk (Draw.set_color s base)) ++
           map Draw.bullet (Ship.projectiles s) /\
    length hull =
      (4 + (if Ship.move_down s then 1 else 0)
         + (if Ship.move_right s then 1 else 0)
         + (if Ship.move_left s then 1 else 0)
         + (if Ship.move_up s then 1 else 0))%nat /\
    length (filter Camera.is_polygon hull) = (length hull - 1)%nat.
Proof.
  unfold Draw.ship.
  destruct (lerp (Ship.color s) Camera.red (Ship.damage_indicator_timer s))
    as [base|]; [|discriminate].
  destruct (lerp base Color.black 0.5) as [darker|]; [|discriminate].
  cbv zeta. intros H. injection H as Hs Hc. subst s' cmds.
  rewrite !set_color_back.
  split; [reflexivity|]. exists base.
  destruct (Ship.move_down s), (Ship.move_right s), (Ship.move_left s),
    (Ship.move_up s);
    (eexists; split; [reflexivity|];
     split; [symmetry; apply app_assoc|split; reflexivity]).
Qed.

(** X15: [draw] raises exactly when the damage-indicator timer is
    outside [0, 1], the range pygame accepts for a blend; a ship that
    keeps its invariants, whose timer never exceeds 0.75, is therefore
    always drawn, and drawing leaves it as it was: the color lent to the
    body for the flash is put back. *)
Theorem draw_needs_timer_in_unit_range (s : Ship.t) :
  RenderingLaws RD ->
  (Draw.ship s <> None <->
   0 <= Ship.damage_indicator_timer s /\
   Ship.damage_indicator_timer s <= 1) /\
  (Ship.invariant s -> exists cmds, Draw.ship s = Some (s, cmds)).
Proof.
  intros Laws.
  assert (Hin : 0 <= Ship.damage_indicator_timer s ->
                Ship.damage_indicator_timer s <= 1 ->
                exists cmds, Draw.ship s = Some (s, cmds)).
  { intros H0 H1.
    destruct (Draw.ship s) as [[s' cmds]|] eqn:D.
    - destruct (draw_returned s s' cmds D) as (-> & _). now exists cmds.
    - exfalso. unfold Draw.ship in D.
      pose proof (lerp_accepts (Ship.color s) Camera.red _ H0 H1) as A.
      destruct (lerp (Ship.color s) Camera.red
                  (Ship.damage_indicator_timer s)) as [base|];
        [|now apply A].
      assert (B : lerp base Color.black 0.5 <> None)
        by (apply lerp_accepts; lra).
      destruct (lerp base Color.black 0.5) as [darker|]; [|now apply B].
      discriminate. }
  split; [split|].
  - intros Hdraw.
    destruct (Qlt_le_dec (Ship.damage_indicator_timer s) 0) as [Hneg|H0].
    + exfalso. apply Hdraw. unfold Draw.ship.
      now rewrite (lerp_rejects _ _ _ (or_introl Hneg)).
    + destruct (Qlt_le_dec 1 (Ship.damage_indicator_timer s)) as [Hbig|H1].
      * exfalso. apply Hdraw. unfold Draw.ship.
        now rewrite (lerp_rejects _ _ _ (or_intror Hbig)).
      * now split.
  - intros [H0 H1]. destruct (Hin H0 H1) as [cmds ->]. discriminate.
  - intros (_ & (H0 & H1) & _). apply Hin; [exact H0|].
    unfold DAMAGE_INDICATOR_TIME in H1. lra.
Qed.

(** X16: when [draw] returns, the camera has received first the hull,
    that is one line, three polygons and one more polygon for each
    movement flag that is set, then the body in the color blended toward
    red by the damage-indicator timer, and last one circle of radius 4
    for every projectile, in the order of the list; the ship is as it
    was. *)
Theorem draw_calls_in_order (s s' : Ship.t) (cmds : list Camera.command) :
  Draw.ship s = Some (s', cmds) ->
  s' = s /\
  exists base hull,
    lerp (Ship.color s) Camera.red (Ship.damage_indicator_timer s) =
      Some base /\
    cmds = hull ++ disk_draw (Ship.disk (Draw.set_color s base)) ++
           map (fun b => Camera.draw_circle (Bullet.color b) (Bullet.pos b) 4)
               (Ship.projectiles s) /\
    length hull =
      (4 + (if Ship.move_down s then 1 else 0)
         + (if Ship.move_right s then 1 else 0)
         + (if Ship.move_left s then 1 else 0)
         + (if Ship.move_up s then 1 else 0))%nat /\
    length (filter Camera.is_polygon hull) = (length hull - 1)%nat.
Proof.
  intros D. destruct (draw_returned s s' cmds D) as (Hs & base & hull & H).
  split; [exact Hs|]. exists base, hull. exact H.
Qed.

(** X17: the cannon is drawn as a line from the position of the ship to
    the very point where [shoot()] puts a new projectile: a shot leaves
    from the tip of the drawn cannon. *)
Theorem shot_leaves_from_cannon_tip (s s' : Ship.t)
  (cmds : list Camera.command) :
  Draw.ship s = Some (s', cmds) ->
  Ship.can_shoot s = true ->
  exists darker b,
    Ship.projectiles (Ship.shoot s) = Ship.projectiles s ++ [b] /\
    In (Camera.draw_line darker (Ship.pos s) (Bullet.pos b)
          (HEAD_WIDTH * Ship.radius s)) cmds.
Proof.
  intros D E. rewrite (shoot_fired s E). cbv zeta.
  cbn [Ship.projectiles Ship.set_ammo Ship.set_gun_cooldown
       Ship.set_projectiles].
  unfold Draw.ship in D.
  destruct (lerp (Ship.color s) Camera.red (Ship.damage_indicator_timer s))
    as [base|]; [|discriminate].
  destruct (lerp base Color.black 0.5) as [darker|]; [|discriminate].
  cbv zeta in D. injection D as _ Hc. subst cmds.
  exists darker. eexists. split; [reflexivity|].
  cbn [Bullet.pos Bullet.init].
  destruct (Ship.move_down s), (Ship.move_right s), (Ship.move_left s),
    (Ship.move_up s); cbn [app In]; auto.
Qed.

End DrawFacts.

(** ** The theorems at concrete ships *)

Import Reference.

Lemma shoot_bullet_color_is_black_witness :
  Ship.can_shoot Reference.player = true /\
  Ship.color Reference.player <> Color.black /\
  exists b,
    Ship.projectiles (Ship.shoot Reference.player) =
      Ship.projectiles Reference.player ++ [b] /\
    Bullet.color b = Color.black /\
    Bullet.color b <> Ship.color Reference.player.
Proof.
  assert (H1 : Ship.can_shoot Reference.player = true)
    by (vm_compute; reflexivity).
  assert (H2 : Ship.color Reference.player <> Color.black)
    by (vm_compute; discriminate).
  split; [exact H1|]. split; [exact H2|].
  exact (shoot_bullet_color_is_black Reference.player H1 H2).
Defined.

Lemma shoot_guard_and_effect_witness :
  Ship.ammo Reference.gunner = 1%Z /\
  Ship.gun_cooldown Reference.gunner == 0 /\
  Vec2.eq (Ship.pos Reference.gunner) Vec2.zero /\
  Ship.angle Reference.gunner = 0 /\
  exists b,
    Ship.projectiles (Ship.shoot Reference.gunner) =
      Ship.projectiles Reference.gunner ++ [b] /\
    Vec2.eq (Bullet.pos b)
      (Vec2.mk (Ship.radius Reference.gunner * HEAD_LENGTH) 0) /\
    Vec2.eq (Bullet.vel b)
      (Vec2.mk (Vec2.x (Ship.vel Reference.gunner) + 300)
               (Vec2.y (Ship.vel Reference.gunner))) /\
    Ship.ammo (Ship.shoot Reference.gunner) = 0%Z /\
    Ship.gun_cooldown (Ship.shoot Reference.gunner) == 0.5.
Proof.
  assert (H1 : Ship.ammo Reference.gunner = 1%Z) by reflexivity.
  assert (H2 : Ship.gun_cooldown Reference.gunner == 0)
    by (vm_compute; reflexivity).
  assert (H3 : Vec2.eq (Ship.pos Reference.gunner) Vec2.zero)
    by (split; vm_compute; reflexivity).
  assert (H4 : Ship.angle Reference.gunner = 0) by reflexivity.
  repeat (split; [assumption|]).
  destruct (shoot_guard_and_effect Reference.gunner) as (_ & _ & _ & H).
  exact (H reference_laws H1 H2 H3 H4).
Defined.

Lemma suffer_damage_guard_and_reset_witness :
  (-5 <= 0 /\ Ship.suffer_damage (-5) Reference.gunner = Reference.gunner) /\
  (0 < 10 /\
   Ship.health (Ship.suffer_damage 10 Reference.gunner) =
     Ship.health Reference.gunner - 10 /\
   Ship.damage_indicator_timer (Ship.suffer_damage 10 Reference.gunner) =
     0.75).
Proof.
  assert (H1 : -5 <= 0) by (vm_compute; discriminate).
  assert (H2 : 0 < 10) by (vm_compute; reflexivity).
  split.
  - split; [exact H1|].
    exact (proj1 (suffer_damage_guard_and_reset (-5) Reference.gunner) H1).
  - split; [exact H2|].
    exact (proj2 (suffer_damage_guard_and_reset 10 Reference.gunner) H2).
Defined.

Lemma ship_invariants_preserved_witness :
  Ship.invariant Reference.gunner /\
  Ship.invariant (Ship.shoot Reference.gunner) /\
  Ship.invariant (Ship.step 1000 Reference.gunner).
Proof.
  assert (H : Ship.invariant Reference.gunner).
  { repeat split; vm_compute; discriminate. }
  assert (Hdt : 0 <= 1000) by (vm_compute; discriminate).
  destruct (ship_invariants_preserved Reference.gunner H)
    as (Hshoot & _ & Hstep & _).
  split; [exact H|]. split; [exact Hshoot|]. exact (Hstep 1000 Hdt).
Defined.

Lemma action_reroll_rule_witness :
  (0 < BulletEnemy.action_timer Reference.enemy - 0.016 /\
   BulletEnemy.current_action
     (fst (BulletEnemy.step 0.016 Reference.rnd Reference.enemy)) =
   BulletEnemy.current_action Reference.enemy) /\
  (BulletEnemy.action_timer Reference.enemy - 7 <= 0 /\
   BulletEnemy.action_timer
     (fst (BulletEnemy.step 7 Reference.rnd Reference.enemy)) = 6).
Proof.
  assert (H1 : 0 < BulletEnemy.action_timer Reference.enemy - 0.016)
    by (vm_compute; reflexivity).
  assert (H2 : BulletEnemy.action_timer Reference.enemy - 7 <= 0)
    by (vm_compute; discriminate).
  split.
  - split; [exact H1|].
    destruct (action_reroll_rule 0.016 Reference.rnd Reference.enemy)
      as (H & _).
    exact (proj2 (H H1)).
  - split; [exact H2|].
    destruct (action_reroll_rule 7 Reference.rnd Reference.enemy)
      as (_ & H & _).
    exact (proj1 (H H2)).
Defined.

Lemma enemy_shooting_gate_witness :
  BulletEnemy.target_ship Reference.ready = Some Reference.player /\
  snd (BulletEnemy.step 0.016 Reference.rnd Reference.ready) = Returned tt /\
  BulletEnemy.time_until_next_shot
    (fst (BulletEnemy.step 0.016 Reference.rnd Reference.ready)) =
  BulletEnemy.shoot_cooldown Reference.ready.
Proof.
  assert (H1 : BulletEnemy.target_ship Reference.ready =
               Some Reference.player) by reflexivity.
  assert (H2 : snd (BulletEnemy.step 0.016 Reference.rnd Reference.ready) =
               Returned tt) by (vm_compute; reflexivity).
  split; [exact H1|]. split; [exact H2|].
  destruct (enemy_shooting_gate 0.016 Reference.rnd Reference.ready
              Reference.player H1) as (_ & _ & H).
  destruct (H H2) as (_ & Hopen).
  refine (proj1 (Hopen _ _)).
  - vm_compute; reflexivity.
  - vm_compute; discriminate.
Defined.

Lemma counter_resets_when_shot_refused_witness :
  BulletEnemy.target_ship Reference.cooling = Some Reference.player /\
  snd (BulletEnemy.step 0.016 Reference.rnd Reference.cooling) =
    Returned tt /\
  BulletEnemy.time_until_next_shot
    (fst (BulletEnemy.step 0.016 Reference.rnd Reference.cooling)) =
  BulletEnemy.shoot_cooldown Reference.cooling /\
  Ship.ammo
    (BulletEnemy.ship
       (fst (BulletEnemy.step 0.016 Reference.rnd Reference.cooling))) =
  Ship.ammo (BulletEnemy.ship Reference.cooling).
Proof.
  assert (H1 : BulletEnemy.target_ship Reference.cooling =
               Some Reference.player) by reflexivity.
  assert (H2 : snd (BulletEnemy.step 0.016 Reference.rnd Reference.cooling) =
               Returned tt) by (vm_compute; reflexivity).
  assert (H3 :
    Vec2.magnitude_squared
      (Vec2.sub (Ship.pos Reference.player)
                (Ship.pos (BulletEnemy.ship Reference.cooling)))
    < ENEMY_SHOOT_RANGE ^ 2) by (vm_compute; reflexivity).
  assert (H4 : BulletEnemy.time_until_next_shot Reference.cooling - 1 <= 0)
    by (vm_compute; discriminate).
  assert (H5 :
    0 < py_max 0
          (Ship.gun_cooldown (BulletEnemy.ship Reference.cooling) - 0.016) \/
    (Ship.ammo (BulletEnemy.ship Reference.cooling) <= 0)%Z)
    by (left; vm_compute; reflexivity).
  split; [exact H1|]. split; [exact H2|].
  destruct (counter_resets_when_shot_refused 0.016 Reference.rnd
              Reference.cooling Reference.player H1 H2 H3 H4 H5)
    as (Hc & _ & Ha & _).
  split; [exact Hc|exact Ha].
Defined.

Lemma zero_direction_raises_witness :
  BulletEnemy.target_ship Reference.braking = Some Reference.player /\
  0 < BulletEnemy.action_timer Reference.braking - 0.016 /\
  BulletEnemy.current_action Reference.braking = BulletEnemy.decelerate /\
  Vec2.eq (Ship.vel (BulletEnemy.ship Reference.braking)) Vec2.zero /\
  snd (BulletEnemy.step 0.016 Reference.rnd Reference.braking) =
    Raised ZeroDivisionError.
Proof.
  assert (H1 : BulletEnemy.target_ship Reference.braking =
               Some Reference.player) by reflexivity.
  assert (H2 : 0 < BulletEnemy.action_timer Reference.braking - 0.016)
    by (vm_compute; reflexivity).
  assert (H3 : BulletEnemy.current_action Reference.braking =
               BulletEnemy.decelerate) by reflexivity.
  assert (H4 : Vec2.eq (Ship.vel (BulletEnemy.ship Reference.braking))
                       Vec2.zero) by (split; vm_compute; reflexivity).
  repeat (split; [assumption|]).
  destruct (zero_direction_raises 0.016 Reference.rnd Reference.braking
              Reference.player reference_laws H1) as (_ & H).
  rewrite (H H2 H3 H4). reflexivity.
Defined.

Lemma missing_target_raises_witness :
  BulletEnemy.target_ship Reference.orphan = None /\
  snd (BulletEnemy.step 0.016 Reference.rnd Reference.orphan) =
    Raised AttributeError.
Proof.
  assert (H1 : BulletEnemy.target_ship Reference.orphan = None)
    by reflexivity.
  split; [exact H1|].
  destruct (missing_target_raises 0.016 Reference.rnd Reference.orphan H1)
    as (H & _).
  rewrite H. reflexivity.
Defined.

(** C9 as stated fails: the step of an enemy without a target does not
    return. *)
Lemma missing_target_step_fails :
  BulletEnemy.target_ship Reference.orphan = None /\
  ~ (exists e',
       BulletEnemy.step 0.016 Reference.rnd Reference.orphan =
       (e', Returned tt)).
Proof.
  split; [reflexivity|].
  intros [e' H]. apply (f_equal snd) in H. vm_compute in H. discriminate.
Qed.

(** ** The further theorems at concrete ships *)

Import Studio.

Lemma studio_laws : RenderingLaws Studio.rendering.
Proof.
  constructor; intros c d a; simpl; unfold Studio.mix.
  - intros H0 H1. apply Qleb_le in H0, H1. rewrite H0, H1. discriminate.
  - intros [H|H]; apply Qleb_gt in H; rewrite H;
      [reflexivity|rewrite andb_false_r; reflexivity].
Qed.

Lemma gun_ready_after_half_second_witness :
  Ship.can_shoot Reference.player = true /\
  Ship.can_shoot (Ship.step 0.3 (Ship.shoot Reference.player)) = false /\
  Ship.can_shoot (Ship.step 0.6 (Ship.shoot Reference.player)) =
    (1 <? Ship.ammo Reference.player)%Z.
Proof.
  assert (H : Ship.can_shoot Reference.player = true)
    by (vm_compute; reflexivity).
  assert (H1 : 0.3 < 0.5) by (vm_compute; reflexivity).
  assert (H2 : 0.5 <= 0.6) by (vm_compute; discriminate).
  split; [exact H|]. split.
  - exact (proj1 (gun_ready_after_half_second 0.3 Reference.player H) H1).
  - exact (proj2 (gun_ready_after_half_second 0.6 Reference.player H) H2).
Defined.

Lemma timers_only_run_down_witness :
  Forall (fun dt => 0 <= dt) [0.2; 0.4] /\
  0 <= Ship.gun_cooldown Reference.gunner /\
  0 <= Ship.damage_indicator_timer Reference.gunner /\
  Ship.damage_indicator_timer
    (Calls.run (map Calls.step [0.2; 0.4]) Reference.gunner) <=
  Ship.damage_indicator_timer Reference.gunner.
Proof.
  assert (H1 : Forall (fun dt => 0 <= dt) [0.2; 0.4])
    by (repeat (constructor; [vm_compute; discriminate|]); constructor).
  assert (H2 : 0 <= Ship.gun_cooldown Reference.gunner)
    by (vm_compute; discriminate).
  assert (H3 : 0 <= Ship.damage_indicator_timer Reference.gunner)
    by (vm_compute; discriminate).
  repeat (split; [assumption|]).
  destruct (timers_only_run_down [0.2; 0.4] Reference.gunner H1 H2 H3)
    as (_ & (_ & H) & _).
  exact H.
Defined.

Lemma new_ship_stays_within_bounds_witness :
  Calls.forward_in_time Studio.calls /\
  Ship.invariant
    (Calls.run Studio.calls (Ship.init Vec2.zero Vec2.zero 1 10 Color.lime)).
Proof.
  assert (H : Calls.forward_in_time Studio.calls).
  { unfold Calls.forward_in_time, Studio.calls.
    repeat (constructor; [try exact I; vm_compute; discriminate|]).
    constructor. }
  split; [exact H|].
  exact (proj1 (new_ship_stays_within_bounds Vec2.zero Vec2.zero 1 10
                  Color.lime Studio.calls H)).
Defined.

Lemma zero_division_when_direction_vanishes_witness :
  BulletEnemy.target_ship Reference.braking = Some Reference.player /\
  BulletEnemy.current_action
    (BulletEnemy.after_reroll 0.016 Reference.rnd Reference.braking) =
    BulletEnemy.decelerate /\
  Vec2.eq (Ship.vel (BulletEnemy.ship Reference.braking)) Vec2.zero /\
  snd (BulletEnemy.step 0.016 Reference.rnd Reference.braking) =
    Raised ZeroDivisionError.
Proof.
  assert (H1 : BulletEnemy.target_ship Reference.braking =
               Some Reference.player) by reflexivity.
  assert (H2 : BulletEnemy.current_action
                 (BulletEnemy.after_reroll 0.016 Reference.rnd
                    Reference.braking) = BulletEnemy.decelerate)
    by (vm_compute; reflexivity).
  assert (H3 : Vec2.eq (Ship.vel (BulletEnemy.ship Reference.braking))
                       Vec2.zero) by (split; vm_compute; reflexivity).
  repeat (split; [assumption|]).
  destruct (zero_division_when_direction_vanishes 0.016 Reference.rnd
              Reference.braking Reference.player reference_laws H1)
    as (_ & _ & H).
  exact (H H2 H3).
Defined.

Lemma no_shot_during_countdown_witness :
  Hunt.run Studio.frames Reference.enemy =
    (fst (Hunt.run Studio.frames Reference.enemy), Returned tt) /\
  inject_Z (Z.of_nat (length Studio.frames)) <
    BulletEnemy.time_until_next_shot Reference.enemy /\
  Ship.ammo
    (BulletEnemy.ship (fst (Hunt.run Studio.frames Reference.enemy))) =
  Ship.ammo (BulletEnemy.ship Reference.enemy).
Proof.
  assert (H1 : Hunt.run Studio.frames Reference.enemy =
               (fst (Hunt.run Studio.frames Reference.enemy), Returned tt))
    by (vm_compute; reflexivity).
  assert (H2 : inject_Z (Z.of_nat (length Studio.frames)) <
               BulletEnemy.time_until_next_shot Reference.enemy)
    by (vm_compute; reflexivity).
  split; [exact H1|]. split; [exact H2|].
  exact (proj1 (no_shot_during_countdown Studio.frames Reference.enemy _
                  H1 H2)).
Defined.

Lemma counter_stops_gating_witness :
  BulletEnemy.shoot_cooldown Reference.ready <= 1 /\
  BulletEnemy.time_until_next_shot Reference.ready <= 1 /\
  BulletEnemy.time_until_next_shot
    (fst (Hunt.run Studio.frames Reference.ready)) - 1 <= 0.
Proof.
  assert (H1 : BulletEnemy.shoot_cooldown Reference.ready <= 1)
    by (vm_compute; discriminate).
  assert (H2 : BulletEnemy.time_until_next_shot Reference.ready <= 1)
    by (vm_compute; discriminate).
  split; [exact H1|]. split; [exact H2|].
  exact (proj2 (counter_stops_gating Studio.frames Reference.ready H1 H2)).
Defined.

Lemma enemy_run_keeps_ship_sound_witness :
  Forall (fun f => 0 <= Hunt.dt f) Studio.frames /\
  Ship.invariant
    (BulletEnemy.ship
       (fst (Hunt.run Studio.frames
               (BulletEnemy.init (Vec2.mk 100 0) Vec2.zero
                  (Some Reference.player) 0.0125 Color.lime)))).
Proof.
  assert (H : Forall (fun f => 0 <= Hunt.dt f) Studio.frames).
  { unfold Studio.frames.
    repeat (constructor; [vm_compute; discriminate|]). constructor. }
  split; [exact H|].
  exact (proj1 (proj2 (enemy_run_keeps_ship_sound Studio.frames
                         (Vec2.mk 100 0) Vec2.zero (Some Reference.player)
                         0.0125 Color.lime Reference.enemy H))).
Defined.

Lemma enemy_faces_its_velocity_witness :
  snd (BulletEnemy.step 0.016 Reference.rnd Reference.enemy) = Returned tt /\
  Ship.angle
    (BulletEnemy.ship
       (fst (BulletEnemy.step 0.016 Reference.rnd Reference.enemy))) =
  atan2_degrees
    (Vec2.y (Ship.vel
       (BulletEnemy.ship
          (fst (BulletEnemy.step 0.016 Reference.rnd Reference.enemy)))))
    (Vec2.x (Ship.vel
       (BulletEnemy.ship
          (fst (BulletEnemy.step 0.016 Reference.rnd Reference.enemy))))).
Proof.
  assert (H : snd (BulletEnemy.step 0.016 Reference.rnd Reference.enemy) =
              Returned tt) by (vm_compute; reflexivity).
  split; [exact H|].
  exact (proj1 (enemy_faces_its_velocity 0.016 Reference.rnd
                  Reference.enemy H)).
Defined.

Lemma draw_needs_timer_in_unit_range_witness :
  Ship.invariant Reference.gunner /\
  exists cmds, Draw.ship Reference.gunner = Some (Reference.gunner, cmds).
Proof.
  assert (H : Ship.invariant Reference.gunner).
  { repeat split; vm_compute; discriminate. }
  split; [exact H|].
  exact (proj2 (draw_needs_timer_in_unit_range Reference.gunner studio_laws)
           H).
Defined.

Lemma draw_calls_in_order_witness :
  exists s' cmds,
    Draw.ship Reference.gunner = Some (s', cmds) /\ s' = Reference.gunner.
Proof.
  destruct (Draw.ship Reference.gunner) as [[s' cmds]|] eqn:D.
  - exists s', cmds. split; [reflexivity|].
    exact (proj1 (draw_calls_in_order Reference.gunner s' cmds D)).
  - vm_compute in D. discriminate.
Defined.

Lemma shot_leaves_from_cannon_tip_witness :
  Ship.can_shoot Reference.gunner = true /\
  exists s' cmds darker b,
    Draw.ship Reference.gunner = Some (s', cmds) /\
    In (Camera.draw_line darker (Ship.pos Reference.gunner) (Bullet.pos b)
          (HEAD_WIDTH * Ship.radius Reference.gunner)) cmds.
Proof.
  assert (E : Ship.can_shoot Reference.gunner = true)
    by (vm_compute; reflexivity).
  split; [exact E|].
  destruct (Draw.ship Reference.gunner) as [[s' cmds]|] eqn:D.
  - destruct (shot_leaves_from_cannon_tip Reference.gunner s' cmds D E)
      as (darker & b & _ & H).
    exists s', cmds, darker, b. split; [reflexivity|exact H].
  - vm_compute in D. discriminate.
Defined.
